(** * papertrail-rag: a shallow embedding of the RAG pipeline

    The development follows the layout of the Python sources:

    - [state/state.py]                     -> [Module State]
    - [nodes/nodes.py]                     -> [Module Nodes]
    - [nodes/reactnode.py]                 -> [Module ReactNode]
    - [vectorstore/vectorstore.py]         -> [Module VectorStore]
    - [document_ingestion/document_processor.py]
                                           -> [Module DocumentProcessor]
    - [graph_builder/graph_builder.py]     -> [Module GraphBuilder]

    Third-party collaborators (the language model, the agent loop, the
    FAISS index, the file system, the web loader) are interfaces: type
    classes whose methods the embedded code calls.  Two library classes
    whose behaviour the properties depend on are embedded from the
    libraries themselves: the recursive character splitter of
    [langchain_text_splitters] ([Module TextSplitter]) and the graph
    builder of [langgraph] ([Module LangGraph]).  The first half of the
    file holds the embedding, the second half the properties, numbered
    C1 to C10 after the statements of the specification they settle. *)

From Stdlib Require Import Ascii String DecimalString.
From stdpp Require Import gmap strings list.

Local Open Scope string_scope.

(* ===================================================================== *)
(** * Python values shared by all modules                                  *)
(* ===================================================================== *)

Module Py.

(** Exceptions the code raises or lets through.  [RuntimeError] keeps
    the cause of [raise ... from exc]; [OtherError] stands for whatever
    a collaborator may raise. *)
Inductive exn : Type :=
| ValueError (msg : string)
| RuntimeError (msg : string) (cause : exn)
| AttributeError (msg : string)
| TypeError (msg : string)
| ValidationError (msg : string)
| IndexError (msg : string)
| GraphRecursionError
| OtherError (name msg : string).

(** The outcome of a call: a value or a raised exception. *)
Inductive result (A : Type) : Type :=
| Ok (a : A)
| Raise (e : exn).
Arguments Ok {A} a.
Arguments Raise {A} e.

Definition bind {A B} (r : result A) (k : A -> result B) : result B :=
  match r with
  | Ok a => k a
  | Raise e => Raise e
  end.

Definition is_ok {A} (r : result A) : bool :=
  match r with Ok _ => true | Raise _ => false end.

(** The newline character and [str(i)] for a non-negative integer. *)
Definition nl : string := String (Ascii.ascii_of_nat 10) EmptyString.

Definition str_of_nat (n : nat) : string :=
  NilZero.string_of_uint (Nat.to_uint n).

(** [repr(s)] of a string, as CPython writes it: between double quotes
    when the string holds an apostrophe and no double quote, between
    apostrophes otherwise; the chosen quote and the backslash behind a
    backslash; tab, newline and carriage return as [\t], [\n], [\r];
    the other control characters as [\xNN].  Characters outside ASCII
    are copied, as CPython copies the printable ones. *)
Definition apostrophe : ascii := Ascii.ascii_of_nat 39.
Definition double_quote : ascii := Ascii.ascii_of_nat 34.
Definition backslash : ascii := Ascii.ascii_of_nat 92.

Definition hex_digit (n : nat) : ascii :=
  if (n <? 10)%nat then Ascii.ascii_of_nat (48 + n)
  else Ascii.ascii_of_nat (87 + n).

Definition occurs (c : ascii) (s : string) : bool :=
  existsb (Ascii.eqb c) (list_ascii_of_string s).

Definition repr_char (quote c : ascii) : string :=
  let n := Ascii.nat_of_ascii c in
  if Ascii.eqb c quote || Ascii.eqb c backslash
  then String backslash (String c EmptyString)
  else if (n =? 9)%nat then "\t"
  else if (n =? 10)%nat then "\n"
  else if (n =? 13)%nat then "\r"
  else if (n <? 32)%nat || (n =? 127)%nat
  then String backslash
         (String "x" (String (hex_digit (n / 16))
                        (String (hex_digit (n mod 16)) EmptyString)))
  else String c EmptyString.

Fixpoint repr_chars (quote : ascii) (s : string) : string :=
  match s with
  | EmptyString => EmptyString
  | String c r => repr_char quote c ++ repr_chars quote r
  end.

Definition repr (s : string) : string :=
  let quote :=
    if occurs apostrophe s && negb (occurs double_quote s)
    then double_quote else apostrophe in
  String quote (repr_chars quote s ++ String quote EmptyString).

(** [sep.join(parts)]. *)
Fixpoint join (sep : string) (parts : list string) : string :=
  match parts with
  | [] => EmptyString
  | [p] => p
  | p :: rest => p ++ sep ++ join sep rest
  end.

(** [s.lower()] on ASCII letters. *)
Definition lower_ascii (c : ascii) : ascii :=
  let n := Ascii.nat_of_ascii c in
  if (65 <=? n)%nat && (n <=? 90)%nat then Ascii.ascii_of_nat (n + 32) else c.

Fixpoint lower (s : string) : string :=
  match s with
  | EmptyString => EmptyString
  | String c r => String (lower_ascii c) (lower r)
  end.

(** [s.startswith(p)]. *)
Definition startswith (s p : string) : bool := String.prefix p s.

(** Values found in a metadata mapping or as a message content. *)
Inductive value : Type :=
| VNone
| VStr (s : string)
| VInt (z : Z)
| VList (items : list string).

(** Python truthiness. *)
Definition truthy (v : value) : bool :=
  match v with
  | VNone => false
  | VStr s => negb (String.eqb s EmptyString)
  | VInt z => negb (Z.eqb z 0)
  | VList l => match l with [] => false | _ => true end
  end.

Definition str_of_Z (z : Z) : string := NilZero.string_of_int (Z.to_int z).

(** [str(v)] as an f-string renders it ([str] of a list of strings is
    rendered with [repr] of its items). *)
Definition format (v : value) : string :=
  match v with
  | VNone => "None"
  | VStr s => s
  | VInt z => str_of_Z z
  | VList l => "[" ++ join ", " (map repr l) ++ "]"
  end.

(** [a or b]. *)
Definition or_else (a b : value) : value := if truthy a then a else b.

(** [langchain_core.documents.Document]. *)
Record Document : Type := mkDocument {
  page_content : string;
  metadata : gmap string value
}.

End Py.
Export Py.

#[global] Instance result_ret : MRet result := @Ok.
#[global] Instance result_bind : MBind result :=
  fun A B (k : A -> result B) (r : result A) => Py.bind r k.

(* ===================================================================== *)
(** * state/state.py                                                       *)
(* ===================================================================== *)

Module State.

(** [class RAGState(BaseModel)]: [query: str],
    [retrieved_docs: List[Document] = []] and [response: str], empty by
    default. *)
Record RAGState : Type := mkRAGState {
  query : string;
  retrieved_docs : list Document;
  response : string
}.

Definition default_retrieved_docs : list Document := [].
Definition default_response : string := EmptyString.

(** A field read through attribute access. *)
Inductive field : Type :=
| FStr (s : string)
| FDocs (docs : list Document).

(** [state.<name>]: the model has exactly three fields; any other name
    raises [AttributeError]. *)
Definition getattr (state : RAGState) (name : string) : result field :=
  if String.eqb name "query" then Ok (FStr (query state))
  else if String.eqb name "retrieved_docs" then Ok (FDocs (retrieved_docs state))
  else if String.eqb name "response" then Ok (FStr (response state))
  else Raise (AttributeError
                ("'RAGState' object has no attribute " ++ repr name)).

(** Field validation done by the constructor: [response] must be a
    [str], [retrieved_docs] a list of documents. *)
Definition validate_str (fname : string) (v : value) : result string :=
  match v with
  | VStr s => Ok s
  | _ => Raise (ValidationError (fname ++ ": Input should be a valid string"))
  end.

Definition validate_docs (fname : string) (f : field) : result (list Document) :=
  match f with
  | FDocs docs => Ok docs
  | FStr _ => Raise (ValidationError (fname ++ ": Input should be a valid list"))
  end.

(** The mapping view of a state ([dict] with the three field names). *)
Definition as_mapping (s : RAGState) : gmap string field :=
  <["query" := FStr (query s)]>
    (<["retrieved_docs" := FDocs (retrieved_docs s)]>
       (<["response" := FStr (response s)]> ∅)).

End State.
Export State.

(* ===================================================================== *)
(** * Collaborators of the node classes                                    *)
(* ===================================================================== *)

(** Objects found in a conversation.  [Opaque] is any object without a
    [content] attribute. *)
Inductive message : Type :=
| HumanMessage (content : string)
| AIMessage (content : value)
| ToolMessage (content : string)
| Opaque.

(** [m.content]: raises on an object that has no such attribute. *)
Definition content_attr (m : message) : result value :=
  match m with
  | HumanMessage c => Ok (VStr c)
  | AIMessage v => Ok v
  | ToolMessage c => Ok (VStr c)
  | Opaque => Raise (AttributeError "object has no attribute 'content'")
  end.

(** [getattr(m, "content", None)]. *)
Definition content_or_None (m : message) : value :=
  match content_attr m with
  | Ok v => v
  | Raise _ => VNone
  end.

(** [retriever.invoke(query)] on a retriever object of type [R]. *)
Class Retriever (R : Type) := {
  retriever_invoke : R -> string -> result (list Document)
}.

(** [llm.invoke(prompt)] on a language-model object of type [L]. *)
Class LanguageModel (L : Type) := {
  llm_invoke : L -> string -> result message
}.

(* ===================================================================== *)
(** * nodes/nodes.py                                                       *)
(* ===================================================================== *)

Module Nodes.
Section RAGNodes.
Context {R L : Type} `{!Retriever R} `{!LanguageModel L}.

(** [class RAGNodes]: [self.retriever], [self.llm]. *)
Record RAGNodes : Type := mkRAGNodes {
  retriever : R;
  llm : L
}.

Definition init (llm : L) (retriever : R) : RAGNodes :=
  mkRAGNodes retriever llm.

(** [retrieve_docs]: the new state is built from [query] and
    [retrieved_docs] only, so [response] takes its default. *)
Definition retrieve_docs (self : RAGNodes) (state : RAGState)
  : result RAGState :=
  docs ← retriever_invoke (retriever self) (query state);
  Ok (mkRAGState (query state) docs default_response).

(** The f-string of [generate_answer], line by line. *)
Definition prompt_of (context q : string) : string :=
  nl ++
  "        Answer the query based on the context provided" ++ nl ++
  "        " ++ nl ++
  "        Context: " ++ nl ++
  "            " ++ context ++ nl ++
  "            " ++ nl ++
  "        query: " ++ q ++ nl ++
  "        " ++ nl ++
  "        ".

(** [generate_answer]: the keyword arguments of the constructor are
    evaluated left to right: [state.query], then [state.documents],
    then [response.content]. *)
Definition generate_answer (self : RAGNodes) (state : RAGState)
  : result RAGState :=
  let context := join "/n/n" (map page_content (retrieved_docs state)) in
  let prompt := prompt_of context (query state) in
  response ← llm_invoke (llm self) prompt;
  let q := query state in
  documents ← getattr state "documents";
  content ← content_attr response;
  docs ← validate_docs "retrieved_docs" documents;
  resp ← validate_str "response" content;
  Ok (mkRAGState q docs resp).

End RAGNodes.
Arguments RAGNodes : clear implicits.
End Nodes.

(* ===================================================================== *)
(** * nodes/reactnode.py                                                   *)
(* ===================================================================== *)

Module ReactNode.

(** [langchain_core.tools.Tool]. *)
Record Tool : Type := mkTool {
  name : string;
  description : string;
  func : string -> result string
}.

(** What [agent.invoke] may hand back: a [dict] or some other object. *)
Inductive agent_output : Type :=
| OutDict (d : gmap string (list message))
| OutOther (m : message).

(** [create_agent(model, tools, system_prompt)] and [agent.invoke]. *)
Class AgentRuntime (L A : Type) := {
  create_agent : L -> list Tool -> string -> result A;
  agent_invoke : A -> gmap string (list message) -> result agent_output
}.

(** [WikipediaQueryRun(api_wrapper=WikipediaAPIWrapper(top_k_results,
    lang)).run]. *)
Class Wikipedia := {
  wiki_run : nat -> string -> string -> result string
}.

Section RAGNodes.
Context {R L A : Type}.
Context `{!Retriever R} `{!AgentRuntime L A} `{!Wikipedia}.

(** [class RAGNodes]: [self.retriever], [self.llm], [self._agent]. *)
Record RAGNodes : Type := mkRAGNodes {
  retriever : R;
  llm : L;
  _agent : option A
}.

Definition init (llm : L) (retriever : R) : RAGNodes :=
  mkRAGNodes retriever llm None.

(** [retrieve_docs]: copies [query] and [response], replaces
    [retrieved_docs]. *)
Definition retrieve_docs (self : RAGNodes) (state : RAGState)
  : result RAGState :=
  docs ← retriever_invoke (retriever self) (query state);
  Ok (mkRAGState (query state) docs (response state)).

(** [title = meta.get("title") or meta.get("source") or f"doc_{i}"]. *)
Definition meta_get (meta : gmap string value) (key : string) : value :=
  default VNone (meta !! key).

Definition title_of (i : nat) (d : Document) : value :=
  let meta := metadata d in
  or_else (or_else (meta_get meta "title") (meta_get meta "source"))
          (VStr ("doc_" ++ str_of_nat i)).

(** [f"[{i}] {title}\n{d.page_content}"]. *)
Definition block (i : nat) (d : Document) : string :=
  "[" ++ str_of_nat i ++ "] " ++ format (title_of i d) ++ nl ++ page_content d.

(** The loop [for i, d in enumerate(docs[:8], start=1)], appending to
    [merged_chunks]. *)
Fixpoint enumerate_loop (i : nat) (docs : list Document)
         (merged_chunks : list string) : list string :=
  match docs with
  | [] => merged_chunks
  | d :: rest => enumerate_loop (S i) rest (merged_chunks ++ [block i d])
  end.

Definition no_documents_found : string := "No documents found.".

Definition retriever_tool_fn (self : RAGNodes) (query : string)
  : result string :=
  docs ← retriever_invoke (retriever self) query;
  match docs with
  | [] => Ok no_documents_found
  | _ =>
      let merged_chunks := enumerate_loop 1 (take 8 docs) [] in
      Ok (join (nl ++ nl) merged_chunks)
  end.

Definition _build_tools (self : RAGNodes) : list Tool :=
  let retriever_tool :=
    mkTool "retriever" "Fetch passages from the indexed vector store."
           (retriever_tool_fn self) in
  let wikipedia_tool :=
    mkTool "wikipedia" "Search Wikipedia for general knowledge."
           (wiki_run 3 "en") in
  [retriever_tool; wikipedia_tool].

Definition system_prompt : string :=
  "You are a helpful RAG agent. " ++
  "Prefer the 'retriever' tool for questions about the user's indexed documents. " ++
  "Use 'wikipedia' only for general world knowledge. " ++
  "Think step by step with tools, but return only the final helpful answer to the user.".

(** [_build_agent]: sets [self._agent]; when [create_agent] raises the
    field keeps its old value. *)
Definition _build_agent (self : RAGNodes) : result unit * RAGNodes :=
  let tools := _build_tools self in
  match create_agent (llm self) tools system_prompt with
  | Ok a => (Ok tt, mkRAGNodes (retriever self) (llm self) (Some a))
  | Raise e => (Raise e, self)
  end.

Definition fallback_response : string := "Could not generate response.".

(** [messages = result.get("messages", []) if isinstance(result, dict)
    else [result]]. *)
Definition messages_of (out : agent_output) : list message :=
  match out with
  | OutDict d => default [] (d !! "messages")
  | OutOther m => [m]
  end.

(** [answer = None; if messages: answer = getattr(messages[-1],
    "content", None)]. *)
Definition answer_of (messages : list message) : value :=
  match last messages with
  | Some answer_msg => content_or_None answer_msg
  | None => VNone
  end.

(** The part of [generate_answer] after the agent is known. *)
Definition answer_with (agent : A) (state : RAGState) : result RAGState :=
  out ← agent_invoke agent {[ "messages" := [HumanMessage (query state)] ]};
  let messages := messages_of out in
  let answer := answer_of messages in
  resp ← validate_str "response" (or_else answer (VStr fallback_response));
  Ok (mkRAGState (query state) (retrieved_docs state) resp).

(** [generate_answer]: builds the agent on first use, then asks it. *)
Definition generate_answer (self : RAGNodes) (state : RAGState)
  : result RAGState * RAGNodes :=
  let '(built, self1) :=
    match _agent self with
    | None => _build_agent self
    | Some _ => (Ok tt, self)
    end in
  match built with
  | Raise e => (Raise e, self1)
  | Ok _ =>
      match _agent self1 with
      | Some agent => (answer_with agent state, self1)
      | None =>
          (Raise (AttributeError "'NoneType' object has no attribute 'invoke'"),
           self1)
      end
  end.

(** The agent [generate_answer] talks to: the one already built, or the
    one [create_agent] makes on first use. *)
Definition agent_in_use (self : RAGNodes) : result A :=
  match _agent self with
  | Some a => Ok a
  | None => create_agent (llm self) (_build_tools self) system_prompt
  end.

End RAGNodes.
Arguments RAGNodes : clear implicits.

(** ** Vocabulary for the output of the retriever tool

    What the tool is expected to print, said without the code's own
    helpers, to compare the code with. *)

(** [shown v text]: [v] is a value Python takes as true and [text] is
    how an f-string prints it. *)
Inductive shown : value -> string -> Prop :=
| shown_str (s : string) :
    s <> EmptyString -> shown (VStr s) s
| shown_int (z : Z) :
    z <> 0%Z -> shown (VInt z) (str_of_Z z)
| shown_list (item : string) (items : list string) :
    shown (VList (item :: items))
          ("[" ++ String.concat ", " (map repr (item :: items)) ++ "]").

(** A metadata entry that is absent or that Python takes as false. *)
Definition unusable (entry : option value) : Prop :=
  entry = None \/ entry = Some VNone \/ entry = Some (VStr EmptyString) \/
  entry = Some (VInt 0) \/ entry = Some (VList []).

(** The title of document number [i]: its metadata entry "title";
    without a usable one its entry "source"; without a usable one
    "doc_" and the number. *)
Inductive printed_title (i : nat) (d : Document) : string -> Prop :=
| title_entry (v : value) (text : string) :
    metadata d !! "title" = Some v -> shown v text ->
    printed_title i d text
| source_entry (v : value) (text : string) :
    unusable (metadata d !! "title") ->
    metadata d !! "source" = Some v -> shown v text ->
    printed_title i d text
| numbered :
    unusable (metadata d !! "title") ->
    unusable (metadata d !! "source") ->
    printed_title i d ("doc_" ++ str_of_nat i).

End ReactNode.

(* ===================================================================== *)
(** * vectorstore/vectorstore.py                                           *)
(* ===================================================================== *)

Module VectorStore.

(** The embedding model and the FAISS index: [OpenAIEmbeddings()],
    [FAISS.from_documents(documents, embedding)] and the search a
    retriever runs, [similarity_search(query, **search_kwargs)]. *)
Class Faiss (E F : Type) := {
  OpenAIEmbeddings : result E;
  from_documents : list Document -> E -> result F;
  similarity_search : F -> string -> gmap string Z -> result (list Document)
}.

Section VectorStore.
Context {E F : Type} `{!Faiss E F}.

(** The retriever object made by [as_retriever]: it points to the index
    and owns a mutable [search_kwargs] dict. *)
Record VectorStoreRetriever : Type := mkRetriever {
  index : F;
  search_kwargs : gmap string Z
}.

(** Retriever objects live in a store and are referred to by address
    (a natural number), so that every holder of a retriever sees
    updates to it. *)

(** [class VectorStore]. *)
Record VectorStore : Type := mkVectorStore {
  embedding : E;
  vectorstore : option F;
  retriever : option nat
}.

Record world : Type := mkWorld {
  heap : gmap nat VectorStoreRetriever;
  self : VectorStore
}.

Definition default_k : Z := 4.

Definition not_initialized : exn :=
  ValueError "Vector store is not initialized. Call 'create_retriever' first.".

(** [__init__]: [self.embedding = embedding_model or OpenAIEmbeddings()]. *)
Definition init (embedding_model : option E)
           (heap : gmap nat VectorStoreRetriever) : result world :=
  embedding ← match embedding_model with
              | Some e => Ok e
              | None => OpenAIEmbeddings
              end;
  Ok (mkWorld heap (mkVectorStore embedding None None)).

(** [create_retriever(documents, k)]. *)
Definition create_retriever (documents : list Document) (k : Z) (w : world)
  : result unit * world :=
  match documents with
  | [] =>
      (Raise (ValueError "Cannot create vector store with an empty document list."), w)
  | _ =>
      match from_documents documents (embedding (self w)) with
      | Raise e => (Raise e, w)
      | Ok vs =>
          let l := fresh (dom (heap w)) in
          let r := mkRetriever vs {[ "k" := k ]} in
          (Ok tt,
           mkWorld (<[ l := r ]> (heap w))
                   (mkVectorStore (embedding (self w)) (Some vs) (Some l)))
      end
  end.

(** [get_retriever()]: hands out the retriever object itself. *)
Definition get_retriever (w : world) : result nat * world :=
  match retriever (self w) with
  | None => (Raise not_initialized, w)
  | Some l => (Ok l, w)
  end.

(** [retriever.get_relevant_documents(query)] on the object at [l]. *)
Definition get_relevant_documents (l : nat) (query : string) (w : world)
  : result (list Document) :=
  match heap w !! l with
  | Some r => similarity_search (index r) query (search_kwargs r)
  | None => Raise (OtherError "ReferenceError" "no such object")
  end.

(** [retrieve(query, k)]: writes [k] into the retriever's
    [search_kwargs], then searches. *)
Definition retrieve (query : string) (k : Z) (w : world)
  : result (list Document) * world :=
  match retriever (self w) with
  | None => (Raise not_initialized, w)
  | Some l =>
      let w' :=
        mkWorld (alter (fun r => mkRetriever (index r)
                                   (<[ "k" := k ]> (search_kwargs r)))
                       l (heap w))
                (self w) in
      (get_relevant_documents l query w', w')
  end.

(** The result count a retriever object currently holds. *)
Definition stored_k (l : nat) (w : world) : option Z :=
  r ← heap w !! l; search_kwargs r !! "k".

(** The calls a client can make, and a session of such calls. *)
Inductive call : Type :=
| CreateRetriever (documents : list Document) (k : Z)
| GetRetriever
| Retrieve (query : string) (k : Z).

(** [step c w]: the new world and whether the call returned. *)
Definition step (c : call) (w : world) : bool * world :=
  match c with
  | CreateRetriever documents k =>
      let '(r, w') := create_retriever documents k w in (is_ok r, w')
  | GetRetriever =>
      let '(r, w') := get_retriever w in (is_ok r, w')
  | Retrieve query k =>
      let '(r, w') := retrieve query k w in (is_ok r, w')
  end.

Definition is_create (c : call) : bool :=
  match c with CreateRetriever _ _ => true | _ => false end.

(** [session cs w]: runs the calls in order; the boolean tells whether
    some [create_retriever] call among them succeeded. *)
Fixpoint session (cs : list call) (w : world) : bool * world :=
  match cs with
  | [] => (false, w)
  | c :: rest =>
      let '(ok, w1) := step c w in
      let '(created, w2) := session rest w1 in
      ((is_create c && ok) || created, w2)
  end.

(** The store's retriever field, when set, points to a live object. *)
Definition sound (w : world) : Prop :=
  forall l, retriever (self w) = Some l -> is_Some (heap w !! l).

End VectorStore.
Arguments VectorStoreRetriever : clear implicits.
Arguments VectorStore : clear implicits.
Arguments world : clear implicits.
End VectorStore.

(* ===================================================================== *)
(** * The text splitter behind [DocumentProcessor.splitter]                *)
(* ===================================================================== *)

(** [langchain_text_splitters.RecursiveCharacterTextSplitter], the
    third-party class [DocumentProcessor.__init__] instantiates with
    [chunk_size] and [chunk_overlap] only.  Every other setting keeps the
    library default: the separators blank line, newline, space and the
    empty string, in this order and taken literally,
    [keep_separator=True], [strip_whitespace=True], [length_function=len].

    A Python [str] is a sequence of characters (code points): [len]
    counts them, [list(text)] cuts between them and [strip] tests them
    one by one.  The splitter is therefore written over the characters
    of a text, whatever they are. *)
Module TextSplitter.
Local Open Scope list_scope.

(** The characters of Python strings: [characters s] lists the
    characters of the text [s] and [text_of] builds the text back;
    [isspace c] tells whether [strip] removes [c] ([str.isspace]);
    [newline] and [space] are the two characters the default separators
    are made of, both white space. *)
Class Characters (char : Type) := {
  char_eq_dec :: EqDecision char;
  characters : string -> list char;
  text_of : list char -> string;
  characters_text_of : forall s : list char, characters (text_of s) = s;
  characters_empty : characters EmptyString = [];
  isspace : char -> bool;
  newline : char;
  space : char;
  characters_newline : characters nl = [newline];
  characters_space : characters " " = [space];
  isspace_newline : isspace newline = true;
  isspace_space : isspace space = true
}.

Section Characters.
Context {char : Type} `{!Characters char}.

Definition chars : Type := list char.

(** [len(s)]: the number of characters. *)
Definition len (s : chars) : Z := Z.of_nat (length s).

Record TextSplitter : Type := mkTextSplitter {
  _chunk_size : Z;
  _chunk_overlap : Z;
  _separators : list chars
}.

Definition default_separators : list chars :=
  [[newline; newline]; [newline]; [space]; []].

(** [TextSplitter.__init__]: the three checks on the sizes. *)
Definition init (chunk_size chunk_overlap : Z) : result TextSplitter :=
  if (chunk_size <=? 0)%Z then
    Raise (ValueError ("chunk_size must be > 0, got " +:+ str_of_Z chunk_size))
  else if (chunk_overlap <? 0)%Z then
    Raise (ValueError ("chunk_overlap must be >= 0, got " +:+ str_of_Z chunk_overlap))
  else if (chunk_overlap >? chunk_size)%Z then
    Raise (ValueError ("Got a larger chunk overlap (" +:+ str_of_Z chunk_overlap +:+
                       ") than chunk size (" +:+ str_of_Z chunk_size +:+
                       "), should be smaller."))
  else Ok (mkTextSplitter chunk_size chunk_overlap default_separators).

(** [str.strip()]: the characters Python counts as whitespace go, from
    both ends. *)
Definition is_space (c : char) : bool := isspace c.

Fixpoint lstrip (s : chars) : chars :=
  match s with
  | c :: r => if is_space c then lstrip r else s
  | [] => []
  end.

Definition rstrip (s : chars) : chars := rev (lstrip (rev s)).

Definition strip (s : chars) : chars := rstrip (lstrip s).

Definition is_empty {A} (l : list A) : bool :=
  match l with [] => true | _ => false end.

(** [text.startswith(p)] and [re.search(re.escape(sep), text)]. *)
Fixpoint starts_with (p text : chars) : bool :=
  match p, text with
  | [], _ => true
  | _ :: _, [] => false
  | a :: p', b :: text' => bool_decide (a = b) && starts_with p' text'
  end.

Fixpoint contains (sep text : chars) : bool :=
  starts_with sep text ||
  match text with
  | [] => false
  | _ :: text' => contains sep text'
  end.

(** [re.split] on a literal, non-empty separator, scanning left to
    right; each separator found starts the next piece (keep_separator).
    [skip] counts the characters of a found separator still to copy and
    [cur] is the piece being built. *)
Fixpoint split_go (sep : chars) (skip : nat) (cur text : chars) : list chars :=
  match text with
  | [] => [cur]
  | c :: rest =>
      match skip with
      | S k => split_go sep k (cur ++ [c]) rest
      | O =>
          if starts_with sep text
          then cur :: split_go sep (length sep - 1) [c] rest
          else split_go sep 0 (cur ++ [c]) rest
      end
  end.

(** [_split_text_with_regex(text, separator, keep_separator=True)]:
    [list(text)] for the empty separator; empty pieces are dropped. *)
Definition _split_text_with_regex (text separator : chars) : list chars :=
  let splits :=
    if is_empty separator then map (fun c => [c]) text
    else split_go separator 0 [] text in
  filter (fun s => s <> []) splits.

(** [separator.join(docs)]. *)
Fixpoint join_chars (separator : chars) (docs : list chars) : chars :=
  match docs with
  | [] => []
  | [d] => d
  | d :: rest => d ++ separator ++ join_chars separator rest
  end.

(** [_join_docs]: joined and stripped, [None] when nothing is left. *)
Definition _join_docs (docs : list chars) (separator : chars) : option chars :=
  let text := strip (join_chars separator docs) in
  if is_empty text then None else Some text.

Definition sep_if (b : bool) (separator_len : Z) : Z :=
  if b then separator_len else 0%Z.

Definition append_doc (docs : list chars) (doc : option chars) : list chars :=
  match doc with
  | Some d => docs ++ [d]
  | None => docs
  end.

(** [Document(page_content=chunk, metadata=copy.deepcopy(metadata))] for
    each chunk of a document. *)
Definition as_documents (doc : Document) (chunks : list chars) : list Document :=
  map (fun chunk => mkDocument (text_of chunk) (metadata doc)) chunks.

Section Splitter.
Variable self : TextSplitter.

(** The [while] loop of [_merge_splits]: drops pieces from the front of
    [current_doc]; [current_doc[0]] raises on an empty list. *)
Fixpoint pop_loop (separator_len _len : Z) (current_doc : list chars)
         (total : Z) : result (list chars * Z) :=
  if (total >? _chunk_overlap self)%Z
     || ((total + _len + sep_if (0 <? length current_doc)%nat separator_len
          >? _chunk_size self)%Z && (total >? 0)%Z)
  then
    match current_doc with
    | [] => Raise (IndexError "list index out of range")
    | first :: rest =>
        pop_loop separator_len _len rest
          (total - (len first
                    + sep_if (1 <? length current_doc)%nat separator_len))%Z
    end
  else Ok (current_doc, total).

(** The [for d in splits] loop of [_merge_splits]. *)
Fixpoint merge_loop (separator : chars) (splits docs current_doc : list chars)
         (total : Z) : result (list chars) :=
  match splits with
  | [] => Ok (append_doc docs (_join_docs current_doc separator))
  | d :: rest =>
      let separator_len := len separator in
      let _len := len d in
      '(docs, current_doc, total) ←
        (if (total + _len + sep_if (0 <? length current_doc)%nat separator_len
             >? _chunk_size self)%Z
         then
           if (0 <? length current_doc)%nat then
             let docs := append_doc docs (_join_docs current_doc separator) in
             '(current_doc, total) ←
               pop_loop separator_len _len current_doc total;
             Ok (docs, current_doc, total)
           else Ok (docs, current_doc, total)
         else Ok (docs, current_doc, total));
      let current_doc := current_doc ++ [d] in
      let total :=
        (total + (_len + sep_if (1 <? length current_doc)%nat separator_len))%Z in
      merge_loop separator rest docs current_doc total
  end.

Definition _merge_splits (splits : list chars) (separator : chars)
  : result (list chars) :=
  merge_loop separator splits [] [] 0%Z.

(** [if _good_splits: final_chunks.extend(_merge_splits(...))]. *)
Definition flush (_good_splits final_chunks : list chars)
  : result (list chars) :=
  if is_empty _good_splits then Ok final_chunks
  else
    merged_text ← _merge_splits _good_splits [];
    Ok (final_chunks ++ merged_text).

(** The [for s in splits] loop of [_split_text]; [deeper] is the
    recursive call on the remaining separators, absent when there are
    none. *)
Fixpoint pieces_loop (deeper : option (chars -> result (list chars)))
         (splits _good_splits final_chunks : list chars)
  : result (list chars) :=
  match splits with
  | [] => flush _good_splits final_chunks
  | s :: rest =>
      if (len s <? _chunk_size self)%Z then
        pieces_loop deeper rest (_good_splits ++ [s]) final_chunks
      else
        final_chunks ← flush _good_splits final_chunks;
        final_chunks ←
          match deeper with
          | None => Ok (final_chunks ++ [s])
          | Some recurse =>
              other_info ← recurse s;
              Ok (final_chunks ++ other_info)
          end;
        pieces_loop deeper rest [] final_chunks
  end.

Definition split_with (deeper : option (chars -> result (list chars)))
           (separator text : chars) : result (list chars) :=
  pieces_loop deeper (_split_text_with_regex text separator) [] [].

(** [_split_text(text, separators)].  The first loop looks for the
    first separator that is empty or occurs in the text; [final] is
    [separators[-1]] of the list the call started with, used when none
    does. *)
Fixpoint split_text_from (final : chars) (separators : list chars)
         (text : chars) : result (list chars) :=
  match separators with
  | [] => split_with None final text
  | _s :: rest =>
      if is_empty _s then split_with None _s text
      else if contains _s text then
        split_with
          (match rest with
           | [] => None
           | _ => Some (split_text_from final rest)
           end) _s text
      else split_text_from final rest text
  end.

Definition _split_text (text : chars) (separators : list chars)
  : result (list chars) :=
  match last separators with
  | None => Raise (IndexError "list index out of range")
  | Some final => split_text_from final separators text
  end.

(** [split_text(text)]. *)
Definition split_text (text : chars) : result (list chars) :=
  _split_text text (_separators self).

(** [create_documents]: one document per chunk, with a copy of the
    metadata of the document it comes from. *)
Definition chunks_of (doc : Document) : result (list Document) :=
  chunks ← split_text (characters (page_content doc));
  Ok (as_documents doc chunks).

Fixpoint split_documents (documents : list Document) : result (list Document) :=
  match documents with
  | [] => Ok []
  | doc :: rest =>
      here ← chunks_of doc;
      there ← split_documents rest;
      Ok (here ++ there)
  end.

End Splitter.

(** ** Vocabulary for the position of chunks in a text *)

(** A window [(start, stop)] of a text and the characters in it. *)
Definition window : Type := (nat * nat)%type.

Definition slice (w : window) (text : chars) : chars :=
  take (w.2 - w.1) (drop w.1 text).

Definition shift (n : nat) (w : window) : window := (n + w.1, n + w.2)%nat.

(** [chunk] is the content of window [w] of [text], as it stands or with
    the white space at its ends removed. *)
Definition cut_from (text : chars) (w : window) (chunk : chars) : Prop :=
  (w.1 <= w.2 <= length text)%nat /\
  (chunk = slice w text \/ chunk = strip (slice w text)).

(** Two windows in a row: the second starts and stops no earlier than
    the first, and they share at most [overlap] characters. *)
Definition link (overlap : Z) (w1 w2 : window) : Prop :=
  (w1.1 <= w2.1)%nat /\ (w1.2 <= w2.2)%nat /\
  (Z.of_nat w1.2 <= Z.of_nat w2.1 + overlap)%Z.

Fixpoint chained (overlap : Z) (ws : list window) : Prop :=
  match ws with
  | w1 :: ((w2 :: _) as rest) => link overlap w1 w2 /\ chained overlap rest
  | _ => True
  end.

(** The chunks lie over the text, in order: each is cut from a window of
    at most [size] characters and consecutive windows overlap by at most
    [overlap] characters. *)
Definition laid_out (size overlap : Z) (text : chars) (chunks : list chars)
  : Prop :=
  exists ws : list window,
    Forall2 (cut_from text) ws chunks /\
    Forall (fun w => (Z.of_nat (w.2 - w.1) <= size)%Z) ws /\
    chained overlap ws.

(** The number of characters two chunks share end to start: the largest
    [n] with [a[-n:] == b[:n]]. *)
Fixpoint common_upto (n : nat) (a b : chars) : nat :=
  match n with
  | O => O
  | S m =>
      if bool_decide (drop (length a - n) a = take n b) then n
      else common_upto m a b
  end.

Definition common (a b : chars) : nat :=
  common_upto (Nat.min (length a) (length b)) a b.

End Characters.
Arguments chars : clear implicits.
Arguments TextSplitter : clear implicits.

End TextSplitter.

(* ===================================================================== *)
(** * document_ingestion/document_processor.py: the loaders                *)
(* ===================================================================== *)

Module DocumentProcessor.

(** A [pathlib.Path], kept as its string form [str(path)]. *)
Record Path : Type := mkPath { path_str : string }.

(** An argument of type [Union[str, Path]]. *)
Inductive path_like : Type :=
| PStr (s : string)
| PPath (p : Path).

(** [not x] is true for the empty string only; a [Path] is always
    truthy. *)
Definition truthy (x : path_like) : bool :=
  match x with
  | PStr s => negb (String.eqb s EmptyString)
  | PPath _ => true
  end.

(** [str(x)]. *)
Definition str (x : path_like) : string :=
  match x with
  | PStr s => s
  | PPath p => path_str p
  end.

Definition repr_Path (p : Path) : string :=
  "PosixPath(" ++ repr (path_str p) ++ ")".

(** Everything the loaders ask of the outside world, in the order asked. *)
Inductive event : Type :=
| AskExists (p : Path)
| AskIsDir (p : Path)
| AskIsFile (p : Path)
| FetchUrl (url : string)
| ReadPdfDir (p : Path)
| ReadText (file : string).

Definition is_read (ev : event) : bool :=
  match ev with
  | AskExists _ | AskIsDir _ | AskIsFile _ => false
  | FetchUrl _ | ReadPdfDir _ | ReadText _ => true
  end.

(** The outside world: [Path(s)], the three file-system tests,
    [urlparse(url).scheme] and the [load()] of the three loaders.  A
    test answers or raises: [Path.exists], [is_dir] and [is_file] let an
    [OSError] through when the system refuses the question (a name that
    is too long, a directory that may not be searched); [urlparse]
    raises [ValueError] on a malformed address. *)
Class Outside := {
  Path_of_str : string -> Path;
  path_exists : Path -> result bool;
  path_is_dir : Path -> result bool;
  path_is_file : Path -> result bool;
  urlparse_scheme : string -> result string;
  WebBaseLoader_load : string -> result (list Document);
  PyPDFDirectoryLoader_load : Path -> result (list Document);
  TextLoader_load : string -> result (list Document)
}.

(** A computation that may raise and that records what it asked. *)
Definition io (A : Type) : Type := (list event * result A)%type.

Definition io_ret {A} (a : A) : io A := ([], Ok a).

Definition io_bind {A B} (m : io A) (k : A -> io B) : io B :=
  match m with
  | (log, Ok a) => let '(log', r) := k a in ((log ++ log')%list, r)
  | (log, Raise e) => (log, Raise e)
  end.

Definition raise {A} (e : exn) : io A := ([], Raise e).

(** One question to the outside world and its answer. *)
Definition ask {A} (ev : event) (answer : result A) : io A := ([ev], answer).

(** [try: ... except Exception as exc: raise handler(exc)]. *)
Definition try_except {A} (m : io A) (handler : exn -> exn) : io A :=
  match m with
  | (log, Raise exc) => (log, Raise (handler exc))
  | (log, Ok a) => (log, Ok a)
  end.

Notation "x <~ m ;; k" := (io_bind m (fun x => k))
  (at level 100, m at next level, right associativity).

(** [rfind]: index of the last occurrence of a character. *)
Fixpoint rfind (c : ascii) (s : string) : option nat :=
  match s with
  | EmptyString => None
  | String a r =>
      match rfind c r with
      | Some i => Some (S i)
      | None => if Ascii.eqb a c then Some 0%nat else None
      end
  end.

(** [path.name]: the final component. *)
Definition name_of (p : Path) : string :=
  let s := path_str p in
  match rfind "/" s with
  | Some i => String.substring (S i) (String.length s - S i) s
  | None => s
  end.

(** [path.suffix]: [name[i:]] for [i = name.rfind('.')] when
    [0 < i < len(name) - 1], else the empty string. *)
Definition suffix (p : Path) : string :=
  let name := name_of p in
  match rfind "." name with
  | Some i =>
      if (0 <? i)%nat && (i <? String.length name - 1)%nat
      then String.substring i (String.length name - i) name
      else EmptyString
  | None => EmptyString
  end.

Section Loaders.
Context `{!Outside}.
Context {char : Type} `{!TextSplitter.Characters char}.

(** [Path(x)]. *)
Definition Path_of (x : path_like) : Path :=
  match x with
  | PStr s => Path_of_str s
  | PPath p => p
  end.

(** [load_from_url]. *)
Definition load_from_url (url : string) : io (list Document) :=
  if String.eqb url EmptyString then
    raise (ValueError "Parameter 'url' must be a non-empty string.")
  else
    scheme <~ ([], urlparse_scheme url);;
    if negb (String.eqb scheme "http" || String.eqb scheme "https") then
      raise (ValueError ("Unsupported URL scheme " ++ repr scheme ++
                         ". Only 'http' and 'https' are allowed."))
    else
      try_except (ask (FetchUrl url) (WebBaseLoader_load url))
        (fun exc => RuntimeError
                      ("Failed to load documents from URL: " ++ repr url) exc).

(** [load_from_pdf_dir]. *)
Definition load_from_pdf_dir (directory : path_like) : io (list Document) :=
  if negb (truthy directory) then
    raise (ValueError "Parameter 'directory' must be a non-empty string or Path.")
  else
    let directory := Path_of directory in
    e <~ ask (AskExists directory) (path_exists directory);;
    if negb e then
      raise (ValueError ("Directory does not exist: " ++ path_str directory))
    else
      d <~ ask (AskIsDir directory) (path_is_dir directory);;
      if negb d then
        raise (ValueError ("Provided path is not a directory: " ++
                           path_str directory))
      else
        try_except
          (ask (ReadPdfDir directory) (PyPDFDirectoryLoader_load directory))
          (fun exc => RuntimeError
                        ("Failed to load PDF documents from directory: " ++
                         repr_Path directory) exc).

(** [load_from_txt]. *)
Definition load_from_txt (file_path : path_like) : io (list Document) :=
  if negb (truthy file_path) then
    raise (ValueError "Parameter 'file_path' must be a non-empty string or Path.")
  else
    let file_path := Path_of file_path in
    e <~ ask (AskExists file_path) (path_exists file_path);;
    if negb e then
      raise (ValueError ("File does not exist: " ++ path_str file_path))
    else
      f <~ ask (AskIsFile file_path) (path_is_file file_path);;
      if negb f then
        raise (ValueError ("Provided path is not a file: " ++ path_str file_path))
      else if negb (String.eqb (lower (suffix file_path)) ".txt") then
        raise (ValueError ("Unsupported file type for load_from_txt: " ++
                           repr (suffix file_path) ++ " (expected '.txt')."))
      else
        try_except
          (ask (ReadText (path_str file_path))
               (TextLoader_load (path_str file_path)))
          (fun exc => RuntimeError
                        ("Failed to load text document(s) from file: " ++
                         repr_Path file_path) exc).

(** [if loaded_docs: docs.extend(loaded_docs)]. *)
Definition extend_if (docs loaded_docs : list Document) : list Document :=
  match loaded_docs with
  | [] => docs
  | _ => (docs ++ loaded_docs)%list
  end.

(** The [for source in sources] loop of [load_documents]. *)
Fixpoint load_loop (sources : list path_like) (docs : list Document)
  : io (list Document) :=
  match sources with
  | [] => io_ret docs
  | source :: rest =>
      if negb (truthy source) then load_loop rest docs
      else
        let source_str := str source in
        if startswith source_str "http://" || startswith source_str "https://"
        then
          loaded_docs <~ load_from_url source_str;;
          load_loop rest (extend_if docs loaded_docs)
        else
          let path := Path_of source in
          e <~ ask (AskExists path) (path_exists path);;
          if negb e then
            raise (ValueError ("Source path does not exist: " ++ path_str path))
          else
            d <~ ask (AskIsDir path) (path_is_dir path);;
            if d then
              loaded_docs <~ load_from_pdf_dir (PPath path);;
              load_loop rest (extend_if docs loaded_docs)
            else
              let suffix := lower (suffix path) in
              if String.eqb suffix ".txt" then
                loaded_docs <~ load_from_txt (PPath path);;
                load_loop rest (extend_if docs loaded_docs)
              else
                raise (ValueError ("Unsupported file type: " ++ suffix ++
                                   " (source: " ++ path_str path ++ ")"))
  end.

(** [load_documents]. *)
Definition load_documents (sources : list path_like) : io (list Document) :=
  match sources with
  | [] => raise (ValueError "Parameter 'sources' must be a non-empty sequence.")
  | _ => load_loop sources []
  end.

(** [class DocumentProcessor]: [self.chunk_size], [self.chunk_overlap]
    and [self.splitter]. *)
Record DocumentProcessor : Type := mkDocumentProcessor {
  chunk_size : Z;
  chunk_overlap : Z;
  splitter : TextSplitter.TextSplitter char
}.

Definition default_chunk_size : Z := 500.
Definition default_chunk_overlap : Z := 100.

(** [__init__(chunk_size, chunk_overlap)]. *)
Definition init (chunk_size chunk_overlap : Z) : result DocumentProcessor :=
  splitter ← TextSplitter.init chunk_size chunk_overlap;
  Ok (mkDocumentProcessor chunk_size chunk_overlap splitter).

(** [split_documents]. *)
Definition split_documents (self : DocumentProcessor)
           (documents : list Document) : result (list Document) :=
  match documents with
  | [] => Ok []
  | _ => TextSplitter.split_documents (splitter self) documents
  end.

(** [process_url]: [load_documents] then [split_documents]. *)
Definition process_url (self : DocumentProcessor) (urls : list string)
  : io (list Document) :=
  docs <~ load_documents (map PStr urls);;
  ([], split_documents self docs).

End Loaders.
Arguments DocumentProcessor : clear implicits.
End DocumentProcessor.

(* ===================================================================== *)
(** * graph_builder/graph_builder.py                                       *)
(* ===================================================================== *)

(** The part of [langgraph.graph.StateGraph] that [GraphBuilder] drives:
    a builder that records nodes and edges, checks them, and a compiled
    graph that walks the edges from [START] to [END]. *)
Module LangGraph.

Definition START : string := "__start__".
Definition END : string := "__end__".

Definition action : Type := RAGState -> result RAGState.

Record StateGraph : Type := mkStateGraph {
  nodes : list (string * action);
  edges : list (string * string)
}.

Definition new : StateGraph := mkStateGraph [] [].

Definition has_node (g : StateGraph) (key : string) : bool :=
  existsb (fun n => String.eqb (fst n) key) (nodes g).

(** [add_node(node, action)]: a name can be registered once. *)
Definition add_node (node : string) (a : action) (g : StateGraph)
  : result StateGraph :=
  if has_node g node then
    Raise (ValueError ("Node `" ++ node ++ "` already present."))
  else if String.eqb node END || String.eqb node START then
    Raise (ValueError ("Node `" ++ node ++ "` is reserved."))
  else Ok (mkStateGraph (nodes g ++ [(node, a)]) (edges g)).

(** [add_edge(start_key, end_key)]. *)
Definition add_edge (start_key end_key : string) (g : StateGraph)
  : result StateGraph :=
  if String.eqb start_key END then Raise (ValueError "END cannot be a start node")
  else if String.eqb end_key START then Raise (ValueError "START cannot be an end node")
  else Ok (mkStateGraph (nodes g) (edges g ++ [(start_key, end_key)])).

(** [set_entry_point(key)] is [add_edge(START, key)]. *)
Definition set_entry_point (key : string) (g : StateGraph) : result StateGraph :=
  add_edge START key g.

(** [compile()] validates the graph: every edge starts at [START] or a
    known node and ends at [END] or a known node, and there is an entry
    point. *)
Definition validate (g : StateGraph) : result unit :=
  match filter (fun e => negb (String.eqb (fst e) START || has_node g (fst e)))
               (edges g) with
  | e :: _ =>
      Raise (ValueError ("Found edge starting at unknown node " ++ repr (fst e)))
  | [] =>
      match filter (fun e => negb (String.eqb (snd e) END || has_node g (snd e)))
                   (edges g) with
      | e :: _ =>
          Raise (ValueError ("Found edge ending at unknown node `" ++ snd e ++ "`"))
      | [] =>
          if existsb (fun e => String.eqb (fst e) START) (edges g) then Ok tt
          else Raise (ValueError "Graph must have an entrypoint")
      end
  end.

Record CompiledStateGraph : Type := mkCompiled { builder : StateGraph }.

Definition compile (g : StateGraph) : result CompiledStateGraph :=
  _ ← validate g; Ok (mkCompiled g).

Definition successor (g : StateGraph) (key : string) : option string :=
  snd <$> head (filter (fun e => String.eqb (fst e) key) (edges g)).

Definition lookup_node (g : StateGraph) (key : string) : option action :=
  snd <$> head (filter (fun n => String.eqb (fst n) key) (nodes g)).

Definition recursion_limit : nat := 25.

(** One node per step, at most [fuel] steps. *)
Fixpoint walk (fuel : nat) (g : StateGraph) (at_ : string) (s : RAGState)
  : result RAGState :=
  match successor g at_ with
  | None => Ok s
  | Some next =>
      if String.eqb next END then Ok s
      else
        match fuel with
        | O => Raise GraphRecursionError
        | S fuel' =>
            match lookup_node g next with
            | None => Raise (ValueError ("unknown node " ++ repr next))
            | Some a => s' ← a s; walk fuel' g next s'
            end
        end
  end.

(** [graph.invoke(state)]: the final state, as a mapping. *)
Definition invoke (c : CompiledStateGraph) (s : RAGState)
  : result (gmap string field) :=
  final ← walk recursion_limit (builder c) START s;
  Ok (as_mapping final).

End LangGraph.

Module GraphBuilder.
Section GraphBuilder.
Context {R L : Type} `{!Retriever R} `{!LanguageModel L}.

(** [class GraphBuilder]: [self.nodes] is the class [RAGNodes] itself,
    not an instance; [self.graph] starts as [None]. *)
Record GraphBuilder : Type := mkGraphBuilder {
  graph : option LangGraph.CompiledStateGraph
}.

(** [__init__(retriver, llm)]: neither argument is kept. *)
Definition init (retriver : R) (llm : L) : GraphBuilder :=
  mkGraphBuilder None.

(** [self.nodes.<method>] is a plain function of [(self, state)]; the
    graph calls a node with the state alone. *)
Definition class_attribute
           (method : Nodes.RAGNodes R L -> RAGState -> result RAGState)
  : LangGraph.action :=
  fun _ => Raise (TypeError "missing 1 required positional argument: 'state'").

(** The builder calls of [build], in order. *)
Definition wire : result LangGraph.CompiledStateGraph :=
  let builder := LangGraph.new in
  builder ← LangGraph.add_node "retriever"
              (class_attribute Nodes.retrieve_docs) builder;
  builder ← LangGraph.add_node "retriever"
              (class_attribute Nodes.generate_answer) builder;
  builder ← LangGraph.set_entry_point "retriever" builder;
  builder ← LangGraph.add_edge "retriever" "responder" builder;
  builder ← LangGraph.add_edge "responder" LangGraph.END builder;
  LangGraph.compile builder.

(** [build()]: [self.graph] is assigned only when [compile] returns. *)
Definition build (self : GraphBuilder)
  : result LangGraph.CompiledStateGraph * GraphBuilder :=
  match wire with
  | Ok g => (Ok g, mkGraphBuilder (Some g))
  | Raise e => (Raise e, self)
  end.

(** [run(query)]. *)
Definition run (self : GraphBuilder) (query : string)
  : result (gmap string field) * GraphBuilder :=
  let '(built, self1) :=
    match graph self with
    | None => let '(r, s) := build self in (_ ← r; Ok tt, s)
    | Some _ => (Ok tt, self)
    end in
  match built with
  | Raise e => (Raise e, self1)
  | Ok _ =>
      let intial_state :=
        mkRAGState query default_retrieved_docs default_response in
      match graph self1 with
      | Some g => (LangGraph.invoke g intial_state, self1)
      | None =>
          (Raise (AttributeError "'NoneType' object has no attribute 'invoke'"),
           self1)
      end
  end.

End GraphBuilder.
Arguments GraphBuilder : clear implicits.
End GraphBuilder.

(* ===================================================================== *)
(** * Stand-ins for the collaborators, used to run the code on examples    *)
(* ===================================================================== *)

Module Doubles.

(** A retriever that answers every query with the documents it holds. *)
Definition fixed_retriever : Retriever (list Document) :=
  {| retriever_invoke := fun docs _ => Ok docs |}.

(** A language model that answers every prompt with the text it holds. *)
Definition fixed_llm : LanguageModel string :=
  {| llm_invoke := fun text _ => Ok (AIMessage (VStr text)) |}.

(** An agent runtime whose agent returns the conversation it holds. *)
Definition fixed_agent : ReactNode.AgentRuntime string (list message) :=
  {| ReactNode.create_agent := fun _ _ _ => Ok [];
     ReactNode.agent_invoke :=
       fun conversation _ =>
         Ok (ReactNode.OutDict {[ "messages" := conversation ]}) |}.

Definition no_wikipedia : ReactNode.Wikipedia :=
  {| ReactNode.wiki_run := fun _ _ _ => Ok EmptyString |}.

(** An index that is the list of its documents and returns the first
    [k] of them. *)
Definition list_index : VectorStore.Faiss unit (list Document) :=
  {| VectorStore.OpenAIEmbeddings := Ok tt;
     VectorStore.from_documents := fun docs _ => Ok docs;
     VectorStore.similarity_search :=
       fun docs _ kwargs =>
         Ok (take (Z.to_nat (default 4%Z (kwargs !! "k"))) docs) |}.

(** A file system with the single regular file [readme.md]. *)
Definition one_file : DocumentProcessor.Outside :=
  {| DocumentProcessor.Path_of_str :=
       fun s => DocumentProcessor.mkPath (if String.eqb s EmptyString then "." else s);
     DocumentProcessor.path_exists :=
       fun p => Ok (String.eqb (DocumentProcessor.path_str p) "readme.md");
     DocumentProcessor.path_is_dir := fun _ => Ok false;
     DocumentProcessor.path_is_file :=
       fun p => Ok (String.eqb (DocumentProcessor.path_str p) "readme.md");
     DocumentProcessor.urlparse_scheme := fun _ => Ok EmptyString;
     DocumentProcessor.WebBaseLoader_load :=
       fun _ => Raise (OtherError "ConnectionError" "offline");
     DocumentProcessor.PyPDFDirectoryLoader_load := fun _ => Ok [];
     DocumentProcessor.TextLoader_load :=
       fun _ => Raise (OtherError "OSError" "unreadable") |}.

Definition paris : Document :=
  mkDocument "Paris is the capital of France." ∅.
Definition tokyo : Document :=
  mkDocument "Tokyo is the capital of Japan." ∅.

Definition draft_state : RAGState := mkRAGState "capital of France?" [] "draft".

(** A new store over [list_index], and the same store after
    [create_retriever([paris, tokyo], k=4)]. *)
Definition new_store : VectorStore.world unit (list Document) :=
  VectorStore.mkWorld ∅ (VectorStore.mkVectorStore tt None None).

Definition two_cities_store : VectorStore.world unit (list Document) :=
  snd (@VectorStore.create_retriever _ _ list_index [paris; tokyo] 4 new_store).

(** Texts whose characters are the code points below 256, one [ascii]
    each.  Among them Python counts as white space the codes 9 to 13, 28
    to 32, 133 (next line) and 160 (no-break space). *)
Definition isspace_below_256 (c : ascii) : bool :=
  let n := Ascii.nat_of_ascii c in
  ((9 <=? n)%nat && (n <=? 13)%nat) || ((28 <=? n)%nat && (n <=? 32)%nat)
  || (n =? 133)%nat || (n =? 160)%nat.

Definition below_256 : TextSplitter.Characters ascii :=
  {| TextSplitter.characters := list_ascii_of_string;
     TextSplitter.text_of := string_of_list_ascii;
     TextSplitter.characters_text_of := list_ascii_of_string_of_list_ascii;
     TextSplitter.characters_empty := eq_refl;
     TextSplitter.isspace := isspace_below_256;
     TextSplitter.newline := Ascii.ascii_of_nat 10;
     TextSplitter.space := Ascii.ascii_of_nat 32;
     TextSplitter.characters_newline := eq_refl;
     TextSplitter.characters_space := eq_refl;
     TextSplitter.isspace_newline := eq_refl;
     TextSplitter.isspace_space := eq_refl |}.

(** A document of five words, four letters each. *)
Definition five_words : Document :=
  mkDocument "aaaa bbbb cccc dddd eeee" ∅.

(** Three words of four, four and two letters e with an acute accent
    (code 233). *)
Definition accented_word (n : nat) : string :=
  string_of_list_ascii (replicate n (Ascii.ascii_of_nat 233)).

Definition accented : Document :=
  mkDocument (accented_word 4 ++ " " ++ accented_word 4 ++ " "
              ++ accented_word 2) ∅.

(** Agentic nodes over a fixed list of documents. *)
Definition react_nodes (docs : list Document)
  : ReactNode.RAGNodes (list Document) string (list message) :=
  ReactNode.init "model" docs.

End Doubles.

(* ===================================================================== *)
(** * Vocabulary for the further properties                                *)
(* ===================================================================== *)

Module Loading.
Import DocumentProcessor.

(** The outcome of a computation with its result mapped by [f]. *)
Definition io_map {A B : Type} (f : A -> B) (m : io A) : io B :=
  match m with
  | (log, Ok a) => (log, Ok (f a))
  | (log, Raise e) => (log, Raise e)
  end.


Definition is_fetch (ev : event) : bool :=
  match ev with FetchUrl _ => true | _ => false end.

(** A source that [load_documents] routes to the URL loader. *)
Definition url_like (source : path_like) : bool :=
  startswith (str source) "http://" || startswith (str source) "https://".

End Loading.

Module Runs.
Section Runs.
Context {R L : Type} `{!Retriever R} `{!LanguageModel L}.

(** Several [run] calls in a row on one builder. *)
Fixpoint run_all (self : GraphBuilder.GraphBuilder) (queries : list string)
  : list (result (gmap string field)) * GraphBuilder.GraphBuilder :=
  match queries with
  | [] => ([], self)
  | query :: rest =>
      let '(r, self1) := GraphBuilder.run (R := R) (L := L) self query in
      let '(rs, self2) := run_all self1 rest in
      (r :: rs, self2)
  end.

End Runs.
End Runs.

Module Stores.
Import VectorStore.

(** The two fields of a store agree: both unset, or the retriever is a
    live object that searches the index the store holds. *)
Definition coherent {E F : Type} (w : world E F) : Prop :=
  match retriever (self w), vectorstore (self w) with
  | None, None => True
  | Some l, Some vs => exists r, heap w !! l = Some r /\ index r = vs
  | _, _ => False
  end.

End Stores.

Module Chunks.
Import TextSplitter.
Section Chunks.
Context {char : Type} `{!Characters char}.

(** The chunks of a text that fits in one chunk: the text without the
    white space at its ends, or nothing when only white space is there. *)
Definition kept_whole (text : chars char) : list (chars char) :=
  match strip text with
  | [] => []
  | stripped => [stripped]
  end.

(** [chunk] is a run of consecutive characters of [text]. *)
Definition piece_of (text chunk : chars char) : Prop :=
  exists pre post : chars char, text = (pre ++ chunk ++ post)%list.

End Chunks.
End Chunks.

(** More stand-ins: a small site with one page, one directory of PDF
    files, two text files, one of them unreadable, and a directory
    [vault] that may not be searched. *)
Module Fixtures.

Definition scheme_of (url : string) : result string :=
  if startswith url "http://[" then Raise (ValueError "Invalid IPv6 URL")
  else if startswith url "https://" then Ok "https"
  else if startswith url "http://" then Ok "http"
  else if startswith url "ftp://" then Ok "ftp"
  else Ok EmptyString.

Definition small_site : DocumentProcessor.Outside :=
  {| DocumentProcessor.Path_of_str :=
       fun s => DocumentProcessor.mkPath (if String.eqb s EmptyString then "." else s);
     DocumentProcessor.path_exists :=
       fun p => let s := DocumentProcessor.path_str p in
                if String.eqb s "vault/notes.txt"
                then Raise (OtherError "PermissionError"
                              "[Errno 13] Permission denied: 'vault/notes.txt'")
                else Ok (String.eqb s "pdfs" || String.eqb s "notes.TXT"
                         || String.eqb s "locked.txt" || String.eqb s "readme.md");
     DocumentProcessor.path_is_dir :=
       fun p => Ok (String.eqb (DocumentProcessor.path_str p) "pdfs");
     DocumentProcessor.path_is_file :=
       fun p => let s := DocumentProcessor.path_str p in
                Ok (String.eqb s "notes.TXT" || String.eqb s "locked.txt"
                    || String.eqb s "readme.md");
     DocumentProcessor.urlparse_scheme := scheme_of;
     DocumentProcessor.WebBaseLoader_load :=
       fun url => if String.eqb url "https://example.org/paris"
                  then Ok [Doubles.paris]
                  else Raise (OtherError "ConnectionError" "unreachable");
     DocumentProcessor.PyPDFDirectoryLoader_load := fun _ => Ok [Doubles.tokyo];
     DocumentProcessor.TextLoader_load :=
       fun file => if String.eqb file "notes.TXT"
                   then Ok [Doubles.five_words]
                   else Raise (OtherError "PermissionError" "denied") |}.

(** A processor with [chunk_size = 40] and [chunk_overlap = 5], and a
    short document with metadata and white space around its text. *)
Definition processor_40_5 : DocumentProcessor.DocumentProcessor ascii :=
  DocumentProcessor.mkDocumentProcessor 40 5
    (TextSplitter.mkTextSplitter 40 5
       (@TextSplitter.default_separators _ Doubles.below_256)).

Definition padded_paris : Document :=
  mkDocument "  Paris is the capital.  " {[ "source" := VStr "atlas.txt" ]}.

Definition blank : Document := mkDocument "   " ∅.

(** Documents for the retriever tool: with a title and a source, with
    an empty title and no source; and four documents in a row, the other
    two with a source only and without metadata. *)
Definition titled_rome : Document :=
  mkDocument "Rome is the capital of Italy."
             (<[ "title" := VStr "Atlas" ]> {[ "source" := VStr "atlas.pdf" ]}).

Definition untitled_oslo : Document :=
  mkDocument "Oslo is the capital of Norway." {[ "title" := VStr EmptyString ]}.

Definition four_documents : list Document :=
  [titled_rome; padded_paris; untitled_oslo; Doubles.paris].

(** A word between a no-break space (code 160) and a next-line
    character (code 133). *)
Definition fenced : Document :=
  mkDocument (String (Ascii.ascii_of_nat 160)
                ("Lyon" ++ String (Ascii.ascii_of_nat 133) EmptyString)) ∅.

(** An agent runtime that cannot build its agent. *)
Definition no_agent : ReactNode.AgentRuntime string (list message) :=
  {| ReactNode.create_agent :=
       fun _ _ _ => Raise (OtherError "AuthenticationError" "no API key");
     ReactNode.agent_invoke :=
       fun conversation _ =>
         Ok (ReactNode.OutDict {[ "messages" := conversation ]}) |}.

(** Agentic nodes whose agent is there already and answers with a tool
    call, its result and a final text. *)
Definition answering_nodes
  : ReactNode.RAGNodes (list Document) string (list message) :=
  ReactNode.mkRAGNodes [Doubles.paris] "model"
    (Some [AIMessage (VList ["call retriever"]);
           ToolMessage "[1] doc_1";
           AIMessage (VStr "Paris.")]).

(** The same with an agent whose last message has no text. *)
Definition mute_nodes
  : ReactNode.RAGNodes (list Document) string (list message) :=
  ReactNode.mkRAGNodes [Doubles.paris] "model"
    (Some [AIMessage (VStr "thinking"); AIMessage (VStr EmptyString)]).

(** Ten documents, numbered. *)
Definition ten_documents : list Document :=
  map (fun i => mkDocument ("text " ++ str_of_nat i) ∅) (seq 1 10).

End Fixtures.

(* ===================================================================== *)
(** * Properties of the workflow nodes                                     *)
(* ===================================================================== *)

Section NodesFacts.
Context {R L : Type} `{!Retriever R} `{!LanguageModel L}.

(** [state.documents] does not exist, whatever the state. *)
Lemma getattr_documents (state : RAGState) :
  getattr state "documents" =
  Raise (AttributeError "'RAGState' object has no attribute 'documents'").
Proof. reflexivity. Qed.

(** The single-shot [generate_answer] never returns a state: either the
    model call raises, or the read of [state.documents] does. *)
Lemma nodes_generate_answer_raises (self : Nodes.RAGNodes R L) (state : RAGState) :
  is_ok (Nodes.generate_answer self state) = false.
Proof.
  unfold Nodes.generate_answer.
  destruct (llm_invoke _ _) as [m|e]; simpl; reflexivity.
Qed.

(** The single-shot [retrieve_docs] returns the default response, not
    the one of its input. *)
Lemma nodes_retrieve_docs_response (self : Nodes.RAGNodes R L)
      (state s' : RAGState) :
  Nodes.retrieve_docs self state = Ok s' ->
  response s' = EmptyString /\ query s' = query state.
Proof.
  unfold Nodes.retrieve_docs.
  destruct (retriever_invoke _ _) as [docs|e]; simpl; [|discriminate].
  intros [= <-]. split; reflexivity.
Qed.

End NodesFacts.

(** C2 (defect in nodes/nodes.py).  The generate stage of the baseline
    workflow never returns a new state: for every node object and every
    state the call raises, and on the state [draft_state] with a model
    that answers "Paris" it raises [AttributeError] for the missing
    attribute [documents], where the specification promises a state with
    the same [query] and [retrieved_docs]. *)
Theorem C2_nodes_generate_answer_raises :
  (forall (R L : Type) (HL : LanguageModel L)
          (self : Nodes.RAGNodes R L) (state : RAGState),
      is_ok (Nodes.generate_answer self state) = false) /\
  @Nodes.generate_answer _ _ Doubles.fixed_llm
     (Nodes.init "Paris" [Doubles.paris]) Doubles.draft_state
  = Raise (AttributeError "'RAGState' object has no attribute 'documents'").
Proof.
  split.
  - intros. apply nodes_generate_answer_raises.
  - reflexivity.
Qed.

(** C4 (defect in nodes/nodes.py).  On the state [draft_state], whose
    response is "draft", the retrieve stage of the baseline workflow
    returns a state whose response is the empty string, while the same
    stage in nodes/reactnode.py returns the response unchanged. *)
Theorem C4_nodes_retrieve_docs_drops_response :
  @Nodes.retrieve_docs _ string Doubles.fixed_retriever
     (Nodes.init "Paris" [Doubles.paris]) Doubles.draft_state
  = Ok (mkRAGState "capital of France?" [Doubles.paris] EmptyString)
  /\
  @ReactNode.retrieve_docs _ _ (list message) Doubles.fixed_retriever
     (ReactNode.init "Paris" [Doubles.paris]) Doubles.draft_state
  = Ok (mkRAGState "capital of France?" [Doubles.paris] "draft").
Proof. split; reflexivity. Qed.

Section ReactNodeFacts.
Import ReactNode.
Context {R L A : Type}.
Context `{!Retriever R} `{!AgentRuntime L A} `{!Wikipedia}.

(** The agentic [retrieve_docs] keeps [query] and [response]. *)
Lemma react_retrieve_docs_frame (self : RAGNodes R L A) (state s' : RAGState) :
  retrieve_docs self state = Ok s' ->
  query s' = query state /\ response s' = response state /\
  retriever_invoke (retriever self) (query state) = Ok (retrieved_docs s').
Proof.
  unfold retrieve_docs.
  destruct (retriever_invoke _ _) as [docs|e]; simpl; [|discriminate].
  intros [= <-]. auto.
Qed.

(** [generate_answer] is [answer_with] on the agent in use. *)
Lemma generate_answer_unfold (self : RAGNodes R L A) (state : RAGState) :
  fst (generate_answer self state) =
  (agent ← agent_in_use self; answer_with agent state).
Proof.
  unfold agent_in_use, generate_answer, _build_agent.
  destruct (_agent self) as [a|] eqn:Hagent; simpl.
  - rewrite Hagent. reflexivity.
  - destruct (create_agent _ _ _) as [a|e]; reflexivity.
Qed.

Lemma generate_answer_with (self : RAGNodes R L A) (state : RAGState) (agent : A) :
  agent_in_use self = Ok agent ->
  fst (generate_answer self state) = answer_with agent state.
Proof. intros Hagent. rewrite generate_answer_unfold, Hagent. reflexivity. Qed.

Lemma answer_with_frame (agent : A) (state s' : RAGState) :
  answer_with agent state = Ok s' ->
  query s' = query state /\ retrieved_docs s' = retrieved_docs state.
Proof.
  unfold answer_with.
  destruct (agent_invoke agent _) as [out|e]; simpl; [|discriminate].
  destruct (validate_str _ _) as [resp|e]; simpl; [|discriminate].
  intros [= <-]. auto.
Qed.

(** The agentic [generate_answer] keeps [query] and [retrieved_docs]. *)
Lemma react_generate_answer_frame (self : RAGNodes R L A) (state s' : RAGState) :
  fst (generate_answer self state) = Ok s' ->
  query s' = query state /\ retrieved_docs s' = retrieved_docs state.
Proof.
  rewrite generate_answer_unfold.
  destruct (agent_in_use self) as [agent|e]; simpl; [|discriminate].
  apply answer_with_frame.
Qed.

(** Without a message there is no answer. *)
Lemma answer_of_nil : answer_of [] = VNone.
Proof. reflexivity. Qed.

(** The fallback also covers a last message with empty or missing
    content. *)
Lemma fallback_on_falsy_answer (agent : A) (state : RAGState) (out : agent_output) :
  agent_invoke agent {[ "messages" := [HumanMessage (query state)] ]} = Ok out ->
  truthy (answer_of (messages_of out)) = false ->
  answer_with agent state =
  Ok (mkRAGState (query state) (retrieved_docs state) fallback_response).
Proof.
  intros Hout Hfalsy. unfold answer_with. rewrite Hout. simpl.
  unfold or_else. rewrite Hfalsy. reflexivity.
Qed.

(** C6.  When the agent's run hands back no message, the generate stage
    returns a state (it does not raise) that keeps [query] and
    [retrieved_docs] and whose response is the fixed text
    "Could not generate response."; lower-cased, that text is the
    phrase "could not generate response" closed by a full stop. *)
Theorem C6_fallback_when_no_message
        (self : RAGNodes R L A) (state : RAGState) (agent : A)
        (out : agent_output) :
  agent_in_use self = Ok agent ->
  agent_invoke agent {[ "messages" := [HumanMessage (query state)] ]} = Ok out ->
  messages_of out = [] ->
  fst (generate_answer self state) =
    Ok (mkRAGState (query state) (retrieved_docs state)
                   "Could not generate response.")
  /\ lower fallback_response = "could not generate response" ++ ".".
Proof.
  intros Hagent Hout Hnone. split; [|reflexivity].
  rewrite (generate_answer_with self state agent Hagent).
  apply (fallback_on_falsy_answer agent state out Hout).
  rewrite Hnone. reflexivity.
Qed.

(** What the loop of the retriever tool appends: block [i + j] for the
    [j]-th document. *)
Lemma enumerate_loop_imap (docs : list Document) :
  forall (i : nat) (merged_chunks : list string),
    enumerate_loop i docs merged_chunks =
    (merged_chunks ++ imap (fun j d => block (i + j) d) docs)%list.
Proof.
  induction docs as [|d docs IH]; intros i acc; simpl.
  - by rewrite app_nil_r.
  - rewrite IH. rewrite <- app_assoc. simpl.
    rewrite Nat.add_0_r. do 2 f_equal.
    apply imap_ext. intros j x _. simpl. f_equal. lia.
Qed.

(** [join] is the concatenation with a separator of the standard
    library. *)
Lemma join_concat (sep : string) (parts : list string) :
  join sep parts = String.concat sep parts.
Proof.
  induction parts as [|p [|p' parts] IH]; [reflexivity..|].
  simpl in *. by rewrite IH.
Qed.

(** A value that is shown is one Python takes as true, and is shown in
    one way. *)
Lemma shown_usable (v : value) (text : string) :
  shown v text -> ~ unusable (Some v).
Proof.
  intros Hshown Hun. unfold unusable in Hun.
  destruct Hshown as [s Hs|z Hz|item items];
    destruct Hun as [Hv|[Hv|[Hv|[Hv|Hv]]]]; congruence.
Qed.

Lemma shown_unique (v : value) (text text' : string) :
  shown v text -> shown v text' -> text = text'.
Proof. intros Hs Hs'. destruct Hs; by inversion Hs'. Qed.

Lemma shown_or_unusable (entry : option value) :
  unusable entry \/ exists v text, entry = Some v /\ shown v text.
Proof.
  unfold unusable.
  destruct entry as [[|s|z|[|item items]]|]; try tauto.
  - destruct (decide (s = EmptyString)) as [->|Hs]; [tauto|].
    right. exists (VStr s), s. split; [reflexivity | by constructor].
  - destruct (decide (z = 0%Z)) as [->|Hz]; [tauto|].
    right. exists (VInt z), (str_of_Z z). split; [reflexivity | by constructor].
  - right. eexists _, _. split; [reflexivity | constructor].
Qed.

(** A value that is shown is printed by the f-string as [shown] says,
    and the code takes it as true. *)
Lemma shown_format (v : value) (text : string) :
  shown v text -> truthy v = true /\ format v = text.
Proof.
  destruct 1 as [s Hs|z Hz|item items].
  - split; [|reflexivity]. apply negb_true_iff.
    destruct (String.eqb s EmptyString) eqn:Heq; [|reflexivity].
    by apply String.eqb_eq in Heq.
  - split; [|reflexivity]. apply negb_true_iff. by apply Z.eqb_neq.
  - split; [reflexivity|]. unfold format. by rewrite join_concat.
Qed.

Lemma unusable_falsy (entry : option value) :
  unusable entry -> truthy (default VNone entry) = false.
Proof. intros [->|[->|[->|[->| ->]]]]; reflexivity. Qed.

(** The title has one value. *)
Lemma printed_title_unique (i : nat) (d : Document) (text text' : string) :
  printed_title i d text -> printed_title i d text' -> text = text'.
Proof.
  intros Ht1 Ht2.
  destruct Ht1 as [v t Hv Ht|v t Hno Hv Ht|Hno Hno'];
    destruct Ht2 as [v' t' Hv' Ht'|v' t' Hno_ Hv' Ht'|Hno_ Hno_'];
    repeat match goal with
           | Hs : shown ?v _, Hu : unusable (?m !! ?k), Hl : ?m !! ?k = Some ?v
             |- _ => rewrite Hl in Hu; by apply shown_usable in Hs
           end;
    try reflexivity.
  - rewrite Hv in Hv'. injection Hv' as <-. by eapply shown_unique.
  - rewrite Hv in Hv'. injection Hv' as <-. by eapply shown_unique.
Qed.

(** The title the code computes is the expected one. *)
Lemma title_of_printed (i : nat) (d : Document) :
  printed_title i d (format (title_of i d)).
Proof.
  unfold title_of, or_else, meta_get.
  destruct (shown_or_unusable (metadata d !! "title"))
    as [Htitle|(v & text & Hv & Hshown)].
  - rewrite (unusable_falsy _ Htitle).
    destruct (shown_or_unusable (metadata d !! "source"))
      as [Hsource|(v & text & Hv & Hshown)].
    + rewrite (unusable_falsy _ Hsource). simpl. by apply numbered.
    + rewrite Hv. simpl.
      destruct (shown_format v text Hshown) as [-> <-].
      by eapply source_entry.
  - rewrite Hv. simpl.
    destruct (shown_format v text Hshown) as [-> <-]. simpl.
    destruct (shown_format v _ Hshown) as [-> _].
    by eapply title_entry.
Qed.

(** C8.  Whatever the retriever returns for the query, the retriever
    tool answers as follows.  With no document it returns the fixed
    text "No documents found.".  Otherwise it returns the blocks of the
    first eight documents at most, in order, with a blank line between
    two blocks and nothing else; block number [j + 1] is "[j+1] ", the
    title, a newline and the content of document [j], where the title
    is the metadata entry "title", without a usable one the entry
    "source", without a usable one "doc_" followed by the number. *)
Theorem C8_retriever_tool_format
        (self : RAGNodes R L A) (q : string) (docs : list Document) :
  retriever_invoke (retriever self) q = Ok docs ->
  (docs = [] -> retriever_tool_fn self q = Ok "No documents found.") /\
  (docs <> [] ->
   exists blocks : list string,
     retriever_tool_fn self q = Ok (String.concat (nl ++ nl) blocks) /\
     length blocks = Nat.min 8 (length docs) /\
     forall (j : nat) (d : Document),
       (j < 8)%nat -> docs !! j = Some d ->
       exists title : string,
         printed_title (S j) d title /\
         blocks !! j =
         Some ("[" ++ str_of_nat (S j) ++ "] " ++ title
                   ++ nl ++ page_content d)).
Proof.
  intros Hdocs. unfold retriever_tool_fn. rewrite Hdocs. simpl.
  split.
  - intros ->. reflexivity.
  - intros Hne. destruct docs as [|d0 docs0]; [done|].
    set (ds := d0 :: docs0) in *.
    exists (imap (fun j d => block (1 + j) d) (take 8 ds)).
    split; [|split].
    + rewrite enumerate_loop_imap, join_concat. reflexivity.
    + rewrite length_imap, length_take. reflexivity.
    + intros j d Hj Hd. exists (format (title_of (S j) d)).
      split; [apply title_of_printed|].
      rewrite list_lookup_imap, lookup_take_lt by exact Hj.
      rewrite Hd. reflexivity.
Qed.

End ReactNodeFacts.


Section ReactNodeExamples.
Import ReactNode.
#[local] Existing Instance Doubles.fixed_retriever.
#[local] Existing Instance Doubles.fixed_agent.
#[local] Existing Instance Doubles.no_wikipedia.

(** C6 at work: the agent hands back an empty conversation. *)
Lemma C6_fallback_when_no_message_witness :
  agent_in_use (Doubles.react_nodes [Doubles.paris]) = Ok [] /\
  agent_invoke [] {[ "messages" := [HumanMessage "capital of France?"] ]}
    = Ok (OutDict {[ "messages" := [] ]}) /\
  fst (generate_answer (Doubles.react_nodes [Doubles.paris]) Doubles.draft_state)
    = Ok (mkRAGState "capital of France?" [] "Could not generate response.").
Proof.
  split; [reflexivity|]. split; [reflexivity|].
  apply (C6_fallback_when_no_message (Doubles.react_nodes [Doubles.paris]) Doubles.draft_state
           [] (OutDict {[ "messages" := [] ]})); reflexivity.
Defined.

(** C8 at work: four documents, the first with a title, the second
    with a source only, the third with an empty title and no source, the
    fourth without metadata; and a retriever that finds nothing. *)
Lemma C8_retriever_tool_format_witness :
  retriever_invoke (retriever (Doubles.react_nodes Fixtures.four_documents))
                   "capital?"
    = Ok Fixtures.four_documents /\
  retriever_tool_fn (Doubles.react_nodes Fixtures.four_documents) "capital?"
    = Ok ("[1] Atlas" ++ nl ++ "Rome is the capital of Italy." ++ nl ++ nl ++
          "[2] atlas.txt" ++ nl ++ "  Paris is the capital.  " ++ nl ++ nl ++
          "[3] doc_3" ++ nl ++ "Oslo is the capital of Norway." ++ nl ++ nl ++
          "[4] doc_4" ++ nl ++ "Paris is the capital of France.") /\
  retriever_tool_fn (Doubles.react_nodes []) "capital?"
    = Ok "No documents found.".
Proof.
  assert (Hdocs : retriever_invoke
                    (retriever (Doubles.react_nodes Fixtures.four_documents))
                    "capital?" = Ok Fixtures.four_documents) by reflexivity.
  assert (Hnone : retriever_invoke (retriever (Doubles.react_nodes []))
                                   "capital?" = Ok []) by reflexivity.
  assert (Hne : Fixtures.four_documents <> []) by discriminate.
  split; [exact Hdocs|]. split.
  - destruct (C8_retriever_tool_format
                (Retriever0 := Doubles.fixed_retriever)
                (Doubles.react_nodes Fixtures.four_documents)
                "capital?" Fixtures.four_documents Hdocs) as [_ Hsome].
    destruct (Hsome Hne) as (blocks & Hout & Hlen & Hblock).
    assert (H0 : (0 < 8)%nat) by lia. assert (H1 : (1 < 8)%nat) by lia.
    assert (H2 : (2 < 8)%nat) by lia. assert (H3 : (3 < 8)%nat) by lia.
    destruct (Hblock 0%nat Fixtures.titled_rome H0 eq_refl) as (t0 & Ht0 & Hb0).
    destruct (Hblock 1%nat Fixtures.padded_paris H1 eq_refl) as (t1 & Ht1 & Hb1).
    destruct (Hblock 2%nat Fixtures.untitled_oslo H2 eq_refl) as (t2 & Ht2 & Hb2).
    destruct (Hblock 3%nat Doubles.paris H3 eq_refl) as (t3 & Ht3 & Hb3).
    assert (t0 = "Atlas") as ->.
    { eapply printed_title_unique; [exact Ht0|].
      eapply title_entry; [reflexivity|]. by constructor. }
    assert (t1 = "atlas.txt") as ->.
    { eapply printed_title_unique; [exact Ht1|].
      eapply source_entry; [by left | reflexivity |]. by constructor. }
    assert (t2 = "doc_3") as ->.
    { eapply printed_title_unique; [exact Ht2|].
      apply (numbered 3 Fixtures.untitled_oslo);
        [right; right; by left | by left]. }
    assert (t3 = "doc_4") as ->.
    { eapply printed_title_unique; [exact Ht3|].
      apply (numbered 4 Doubles.paris); by left. }
    destruct blocks as [|b0 [|b1 [|b2 [|b3 [|b4 blocks]]]]];
      try discriminate Hlen.
    injection Hb0 as ->. injection Hb1 as ->.
    injection Hb2 as ->. injection Hb3 as ->.
    rewrite Hout. reflexivity.
  - apply (C8_retriever_tool_format
             (Retriever0 := Doubles.fixed_retriever)
             (Doubles.react_nodes []) "capital?" [] Hnone).
    reflexivity.
Defined.

(** The same output, computed. *)
Lemma retriever_tool_four_documents :
  retriever_tool_fn (Doubles.react_nodes Fixtures.four_documents) "capital?"
    = Ok ("[1] Atlas" ++ nl ++ "Rome is the capital of Italy." ++ nl ++ nl ++
          "[2] atlas.txt" ++ nl ++ "  Paris is the capital.  " ++ nl ++ nl ++
          "[3] doc_3" ++ nl ++ "Oslo is the capital of Norway." ++ nl ++ nl ++
          "[4] doc_4" ++ nl ++ "Paris is the capital of France.").
Proof. vm_compute. reflexivity. Qed.

(** A title that is a list is printed as Python prints a list of
    strings, each item between the quotes [repr] chooses. *)
Lemma retriever_tool_list_title :
  retriever_tool_fn
    (Doubles.react_nodes
       [mkDocument "text" {[ "title" := VList ["it's"; "plain"] ]}]) "q"
    = Ok ("[1] [" ++ String Py.double_quote "it's" ++ String Py.double_quote ", 'plain']"
          ++ nl ++ "text").
Proof. vm_compute. reflexivity. Qed.

End ReactNodeExamples.

(* ===================================================================== *)
(** * Properties of the vector store                                       *)
(* ===================================================================== *)

Section VectorStoreFacts.
Import VectorStore.
Context {E F : Type} `{!Faiss E F}.

Lemma init_sound (embedding_model : option E)
      (heap0 : gmap nat (VectorStoreRetriever F)) (w0 : world E F) :
  init embedding_model heap0 = Ok w0 ->
  sound w0 /\ retriever (self w0) = None.
Proof.
  unfold init.
  destruct (match embedding_model with Some e => Ok e | None => _ end)
    as [em|e]; simpl; [|discriminate].
  intros [= <-]. split; [|reflexivity].
  intros l; simpl; discriminate.
Qed.

(** What a successful [create_retriever] leaves behind. *)
Lemma create_retriever_ok (documents : list Document) (k : Z) (w w1 : world E F) :
  create_retriever documents k w = (Ok tt, w1) ->
  exists vs l,
    from_documents documents (embedding (self w)) = Ok vs /\
    heap w !! l = None /\
    w1 = mkWorld (<[ l := mkRetriever vs {[ "k" := k ]} ]> (heap w))
                 (mkVectorStore (embedding (self w)) (Some vs) (Some l)).
Proof.
  unfold create_retriever.
  destruct documents as [|d ds]; [discriminate|].
  destruct (from_documents _ _) as [vs|e]; [|discriminate].
  intros [= <-]. exists vs, (fresh (dom (heap w))).
  split; [reflexivity|]. split; [|reflexivity].
  apply not_elem_of_dom, is_fresh.
Qed.

(** A failed [create_retriever] changes nothing. *)
Lemma create_retriever_raise (documents : list Document) (k : Z)
      (w w1 : world E F) (e : exn) :
  create_retriever documents k w = (Raise e, w1) -> w1 = w.
Proof.
  unfold create_retriever.
  destruct documents as [|d ds]; [by intros [= _ <-]|].
  destruct (from_documents _ _) as [vs|e']; [discriminate|].
  by intros [= _ <-].
Qed.

(** [retrieve] on an initialised store: the guard passes, [k] is
    written into the retriever object, and the search runs with it. *)
Lemma retrieve_initialized (q : string) (k : Z) (w : world E F)
      (l : nat) (r : VectorStoreRetriever F) :
  retriever (self w) = Some l ->
  heap w !! l = Some r ->
  retrieve q k w =
  (similarity_search (index r) q (<[ "k" := k ]> (search_kwargs r)),
   mkWorld (<[ l := mkRetriever (index r) (<[ "k" := k ]> (search_kwargs r)) ]>
              (heap w))
           (self w)).
Proof.
  intros Hl Hr. unfold retrieve, get_relevant_documents. rewrite Hl. simpl.
  rewrite lookup_alter_eq. rewrite Hr. simpl. f_equal. f_equal.
  apply map_eq. intros i. destruct (decide (l = i)) as [<-|Hne].
  - by rewrite lookup_alter_eq, lookup_insert_eq, Hr.
  - by rewrite lookup_alter_ne, lookup_insert_ne.
Qed.

Lemma retrieve_uninitialized (q : string) (k : Z) (w : world E F) :
  retriever (self w) = None -> retrieve q k w = (Raise not_initialized, w).
Proof. intros H. unfold retrieve. by rewrite H. Qed.

Lemma get_retriever_uninitialized (w : world E F) :
  retriever (self w) = None -> get_retriever w = (Raise not_initialized, w).
Proof. intros H. unfold get_retriever. by rewrite H. Qed.

(** One call keeps the store sound; the retriever field is unset
    afterwards exactly when it was unset before and the call was not a
    successful [create_retriever]. *)
Lemma step_inv (c : call) (w w1 : world E F) (ok : bool) :
  step c w = (ok, w1) ->
  sound w ->
  sound w1 /\
  (retriever (self w1) = None <->
   retriever (self w) = None /\ is_create c && ok = false).
Proof.
  intros Hstep Hsound. destruct c as [documents k| |q k]; simpl in Hstep.
  - destruct (create_retriever documents k w) as [[[]|e] w'] eqn:Hc;
      injection Hstep as <- <-.
    + apply create_retriever_ok in Hc as (vs & l & _ & _ & ->). split.
      * intros l'. simpl. intros [= <-]. rewrite lookup_insert_eq. eauto.
      * simpl. split; [discriminate|intros [_ ?]; discriminate].
    + apply create_retriever_raise in Hc as ->. split; [exact Hsound|].
      simpl. intuition congruence.
  - unfold get_retriever in Hstep.
    destruct (retriever (self w)) eqn:Hr; injection Hstep as <- <-;
      (split; [exact Hsound|rewrite Hr; simpl; intuition congruence]).
  - destruct (retriever (self w)) as [l|] eqn:Hl.
    + destruct (Hsound l Hl) as [r Hr].
      rewrite (retrieve_initialized q k w l r Hl Hr) in Hstep.
      injection Hstep as <- <-. split.
      * intros l'. simpl. rewrite Hl. intros [= <-].
        rewrite lookup_insert_eq. eauto.
      * simpl. intuition congruence.
    + rewrite (retrieve_uninitialized q k w Hl) in Hstep.
      injection Hstep as <- <-. split; [exact Hsound|simpl; intuition congruence].
Qed.

Lemma session_inv (cs : list call) :
  forall (w w1 : world E F) (created : bool),
    session cs w = (created, w1) ->
    sound w ->
    sound w1 /\
    (retriever (self w1) = None <-> retriever (self w) = None /\ created = false).
Proof.
  induction cs as [|c cs IH]; intros w w1 created Hs Hsound; simpl in Hs.
  - injection Hs as <- <-. tauto.
  - destruct (step c w) as [ok wa] eqn:Hstep.
    destruct (session cs wa) as [created' wb] eqn:Hrest.
    injection Hs as <- <-.
    destruct (step_inv c w wa ok Hstep Hsound) as [Hsa Hiffa].
    destruct (IH wa wb created' Hrest Hsa) as [Hsb Hiffb].
    split; [exact Hsb|].
    rewrite Hiffb, Hiffa, orb_false_iff. tauto.
Qed.

(** C7.  Start from a new store and make any sequence of calls.  As long
    as no [create_retriever] among them has succeeded, [get_retriever]
    and [retrieve], for every query and count, raise the "not
    initialized" error.  Once one has succeeded neither raises it:
    [get_retriever] returns the retriever and the outcome of [retrieve]
    is the outcome of the search on the index. *)
Theorem C7_not_initialized_until_created
        (embedding_model : option E) (heap0 : gmap nat (VectorStoreRetriever F))
        (w0 w : world E F) (cs : list call) (created : bool) :
  init embedding_model heap0 = Ok w0 ->
  session cs w0 = (created, w) ->
  (created = false ->
   fst (get_retriever w) = Raise not_initialized /\
   forall q k, fst (retrieve q k w) = Raise not_initialized) /\
  (created = true ->
   exists (l : nat) (r : VectorStoreRetriever F),
     heap w !! l = Some r /\
     fst (get_retriever w) = Ok l /\
     forall q k,
       fst (retrieve q k w) =
       similarity_search (index r) q (<[ "k" := k ]> (search_kwargs r))).
Proof.
  intros Hinit Hsession.
  destruct (init_sound _ _ _ Hinit) as [Hsound0 Hnone0].
  destruct (session_inv cs w0 w created Hsession Hsound0) as [Hsound Hiff].
  split.
  - intros ->. assert (Hnone : retriever (self w) = None) by (apply Hiff; auto).
    split.
    + by rewrite get_retriever_uninitialized.
    + intros q k. by rewrite retrieve_uninitialized.
  - intros ->. destruct (retriever (self w)) as [l|] eqn:Hl.
    + destruct (Hsound l Hl) as [r Hr]. exists l, r.
      split; [exact Hr|]. split.
      * unfold get_retriever. by rewrite Hl.
      * intros q k. by rewrite (retrieve_initialized q k w l r Hl Hr).
    + destruct Hiff as [Hiff _]. destruct (Hiff eq_refl) as [_ ?]. discriminate.
Qed.

(** C3, as the code has it.  After a successful
    [create_retriever(docs, k=d)] the retriever object holds [d].  A call
    [retrieve(query, k)] overrides it for that call: the call returns
    what the search over the store's index gives for [query] with [k].
    It does so by writing [k] into that same object, so the override
    outlives the call: afterwards the stored count is [k] (it is still
    [d] only when [k = d]) and a later search through the retriever runs
    with [k]. *)
Theorem C3_retrieve_overwrites_stored_k
        (documents : list Document) (d : Z) (w w1 : world E F) :
  create_retriever documents d w = (Ok tt, w1) ->
  exists (l : nat) (vs : F),
    retriever (self w1) = Some l /\
    vectorstore (self w1) = Some vs /\
    stored_k l w1 = Some d /\
    forall q k,
      let w2 := snd (retrieve q k w1) in
      fst (retrieve q k w1) = similarity_search vs q {[ "k" := k ]} /\
      retriever (self w2) = Some l /\
      stored_k l w2 = Some k /\
      (stored_k l w2 = Some d <-> k = d) /\
      forall q', get_relevant_documents l q' w2 =
                 similarity_search vs q' {[ "k" := k ]}.
Proof.
  intros Hc. apply create_retriever_ok in Hc as (vs & l & _ & _ & ->).
  exists l, vs. split; [reflexivity|]. split; [reflexivity|]. split.
  - unfold stored_k. simpl. rewrite lookup_insert_eq. simpl.
    by rewrite lookup_singleton_eq.
  - intros q k w2. subst w2.
    erewrite retrieve_initialized;
      [|reflexivity|simpl; apply lookup_insert_eq].
    simpl. rewrite insert_singleton_eq. split; [reflexivity|].
    assert (Hk : stored_k l
                   {| heap := <[l:={| index := vs; search_kwargs := {["k" := k]} |}]>
                                (<[l:={| index := vs; search_kwargs := {["k" := d]} |}]>
                                   (heap w));
                      self := {| embedding := embedding (self w);
                                 vectorstore := Some vs; retriever := Some l |} |}
                 = Some k).
    { unfold stored_k. simpl. rewrite lookup_insert_eq. simpl.
      by rewrite lookup_singleton_eq. }
    split; [reflexivity|]. split; [exact Hk|]. split.
    + rewrite Hk. split; [by intros [= ->]|by intros ->].
    + intros q'. unfold get_relevant_documents. simpl.
      by rewrite lookup_insert_eq.
Qed.

End VectorStoreFacts.

Section VectorStoreExamples.
Import VectorStore.
#[local] Existing Instance Doubles.list_index.

(** C3 as the specification words it fails: the store is created with
    [k=4]; one call [retrieve("capital?", 2)] later the retriever object
    holds 2, not 4. *)
Lemma C3_stored_default_changes_counterexample :
  init (Some tt) ∅ = Ok Doubles.new_store /\
  create_retriever [Doubles.paris; Doubles.tokyo] 4 Doubles.new_store
    = (Ok tt, Doubles.two_cities_store) /\
  retriever (self Doubles.two_cities_store) = Some 0%nat /\
  stored_k 0 Doubles.two_cities_store = Some 4%Z /\
  stored_k 0 (snd (retrieve "capital?" 2 Doubles.two_cities_store)) = Some 2%Z /\
  stored_k 0 (snd (retrieve "capital?" 2 Doubles.two_cities_store))
    <> stored_k 0 Doubles.two_cities_store.
Proof.
  split; [reflexivity|]. split; [vm_compute; reflexivity|].
  split; [vm_compute; reflexivity|].
  split; [vm_compute; reflexivity|].
  split; [vm_compute; reflexivity|].
  vm_compute. discriminate.
Qed.

(** C3 at work on the same store: created with [k=4] over two
    documents, [retrieve("capital?", 1)] returns one document, and 1 is
    what the retriever holds afterwards. *)
Lemma C3_retrieve_overwrites_stored_k_witness :
  create_retriever [Doubles.paris; Doubles.tokyo] 4 Doubles.new_store
    = (Ok tt, Doubles.two_cities_store) /\
  fst (retrieve "capital?" 1 Doubles.two_cities_store) = Ok [Doubles.paris] /\
  exists l : nat,
    retriever (self Doubles.two_cities_store) = Some l /\
    stored_k l Doubles.two_cities_store = Some 4%Z /\
    stored_k l (snd (retrieve "capital?" 1 Doubles.two_cities_store)) = Some 1%Z.
Proof.
  assert (Hc : create_retriever [Doubles.paris; Doubles.tokyo] 4 Doubles.new_store
               = (Ok tt, Doubles.two_cities_store)) by (vm_compute; reflexivity).
  assert (Hindex : vectorstore (self Doubles.two_cities_store)
                   = Some [Doubles.paris; Doubles.tokyo]) by reflexivity.
  split; [exact Hc|].
  destruct (C3_retrieve_overwrites_stored_k _ _ _ _ Hc)
    as (l & vs & Hl & Hvs & Hbefore & Hafter).
  rewrite Hindex in Hvs. injection Hvs as <-.
  destruct (Hafter "capital?" 1%Z) as (Hcall & _ & Hstored & _).
  split.
  - rewrite Hcall. reflexivity.
  - exists l. split; [exact Hl|]. split; [exact Hbefore | exact Hstored].
Defined.

(** C7 at work: on a new store both accessors raise; after a failed
    creation followed by a good one, [get_retriever] returns the
    retriever. *)
Lemma C7_not_initialized_until_created_witness :
  init (Some tt) ∅ = Ok Doubles.new_store /\
  (fst (get_retriever Doubles.new_store) = Raise not_initialized /\
   forall q k, fst (retrieve q k Doubles.new_store) = Raise not_initialized) /\
  session [CreateRetriever [] 4; CreateRetriever [Doubles.paris] 4]
          Doubles.new_store
    = (true,
       snd (session [CreateRetriever [] 4; CreateRetriever [Doubles.paris] 4]
                    Doubles.new_store)) /\
  exists l : nat,
    fst (get_retriever
           (snd (session [CreateRetriever [] 4; CreateRetriever [Doubles.paris] 4]
                         Doubles.new_store))) = Ok l.
Proof.
  assert (Hinit : init (Some tt) ∅ = Ok Doubles.new_store) by reflexivity.
  assert (Hrun : session [CreateRetriever [] 4; CreateRetriever [Doubles.paris] 4]
                         Doubles.new_store
                 = (true,
                    snd (session [CreateRetriever [] 4;
                                  CreateRetriever [Doubles.paris] 4]
                                 Doubles.new_store)))
    by (vm_compute; reflexivity).
  split; [exact Hinit|]. split; [|split; [exact Hrun|]].
  - apply (C7_not_initialized_until_created (Some tt) ∅
             Doubles.new_store Doubles.new_store [] false Hinit);
      reflexivity.
  - destruct (C7_not_initialized_until_created (Some tt) ∅
                Doubles.new_store _ _ true Hinit Hrun) as [_ Hcreated].
    destruct (Hcreated eq_refl) as (l & r & _ & Hget & _).
    exists l. exact Hget.
Defined.

End VectorStoreExamples.

(* ===================================================================== *)
(** * Properties of the loaders                                            *)
(* ===================================================================== *)

Section LoaderFacts.
Import DocumentProcessor.
Context `{!Outside}.

(** Falsy sources are skipped without a question to the outside world. *)
Lemma load_loop_all_falsy (sources : list path_like) :
  Forall (fun source => truthy source = false) sources ->
  forall docs, load_loop sources docs = ([], Ok docs).
Proof.
  induction 1 as [|source rest Hfalsy _ IH]; intros docs; simpl.
  - reflexivity.
  - rewrite Hfalsy. simpl. apply IH.
Qed.

(** The only falsy source is the empty string. *)
Lemma truthy_false_iff (source : path_like) :
  truthy source = false <-> source = PStr EmptyString.
Proof.
  destruct source as [s|p]; simpl.
  - rewrite negb_false_iff, String.eqb_eq. split; [by intros ->|by intros [= ->]].
  - split; discriminate.
Qed.

(** C10.  For a non-empty sequence of sources all of which are falsy,
    [load_documents] raises nothing and returns the empty list, and it
    asks nothing of the file system or the network: the empty-input
    error is for the empty sequence only. *)
Theorem C10_all_falsy_sources_load_nothing (sources : list path_like) :
  sources <> [] ->
  Forall (fun source => truthy source = false) sources ->
  load_documents sources = ([], Ok []).
Proof.
  intros Hne Hfalsy. unfold load_documents.
  destruct sources as [|source rest]; [done|].
  by apply load_loop_all_falsy.
Qed.

(** The empty sequence itself is rejected. *)
Lemma load_documents_nil :
  load_documents [] =
  ([], Raise (ValueError "Parameter 'sources' must be a non-empty sequence.")).
Proof. reflexivity. Qed.

(** C9.  For a path to an existing regular file (the existence test and
    the file test answer yes) whose suffix, lower-cased, is not ".txt",
    [load_from_txt] raises [ValueError] and the questions it has asked by
    then are no reads: for a truthy argument they are the existence test
    and the file test, in this order. *)
Theorem C9_load_from_txt_wrong_suffix (file_path : path_like) :
  path_exists (Path_of file_path) = Ok true ->
  path_is_file (Path_of file_path) = Ok true ->
  lower (suffix (Path_of file_path)) <> ".txt" ->
  exists (log : list event) (msg : string),
    load_from_txt file_path = (log, Raise (ValueError msg)) /\
    forallb (fun ev => negb (is_read ev)) log = true /\
    (truthy file_path = true ->
     log = [AskExists (Path_of file_path); AskIsFile (Path_of file_path)]).
Proof.
  intros Hexists Hfile Hsuffix. unfold load_from_txt.
  destruct (truthy file_path) eqn:Htruthy; simpl.
  - rewrite Hexists, Hfile. simpl.
    destruct (String.eqb (lower (suffix (Path_of file_path))) ".txt") eqn:Heq.
    + apply String.eqb_eq in Heq. contradiction.
    + simpl. eexists _, _. split; [reflexivity|]. split; [reflexivity|].
      reflexivity.
  - eexists _, _. split; [reflexivity|]. split; [reflexivity|]. discriminate.
Qed.

End LoaderFacts.

Section LoaderExamples.
Import DocumentProcessor.
#[local] Existing Instance Doubles.one_file.

(** [load_from_txt("readme.md")] on a file system where that file exists. *)
Lemma load_from_txt_readme :
  load_from_txt (PStr "readme.md") =
  ([AskExists (mkPath "readme.md"); AskIsFile (mkPath "readme.md")],
   Raise (ValueError
            "Unsupported file type for load_from_txt: '.md' (expected '.txt').")).
Proof. reflexivity. Qed.

(** C9 at work on [readme.md]. *)
Lemma C9_load_from_txt_wrong_suffix_witness :
  path_exists (Path_of (PStr "readme.md")) = Ok true /\
  path_is_file (Path_of (PStr "readme.md")) = Ok true /\
  lower (suffix (Path_of (PStr "readme.md"))) <> ".txt" /\
  exists (log : list event) (msg : string),
    load_from_txt (PStr "readme.md") = (log, Raise (ValueError msg)) /\
    forallb (fun ev => negb (is_read ev)) log = true.
Proof.
  assert (Hsuffix : lower (suffix (Path_of (PStr "readme.md"))) <> ".txt")
    by (vm_compute; discriminate).
  assert (Hexists : path_exists (Path_of (PStr "readme.md")) = Ok true)
    by reflexivity.
  assert (Hfile : path_is_file (Path_of (PStr "readme.md")) = Ok true)
    by reflexivity.
  split; [exact Hexists|]. split; [exact Hfile|]. split; [exact Hsuffix|].
  destruct (C9_load_from_txt_wrong_suffix (PStr "readme.md")
              Hexists Hfile Hsuffix) as (log & msg & Hload & Hlog & _).
  exists log, msg. split; [exact Hload | exact Hlog].
Defined.

(** C10 at work on two empty strings. *)
Lemma C10_all_falsy_sources_load_nothing_witness :
  [PStr EmptyString; PStr EmptyString] <> [] /\
  Forall (fun source => truthy source = false) [PStr EmptyString; PStr EmptyString] /\
  load_documents [PStr EmptyString; PStr EmptyString] = ([], Ok []).
Proof.
  assert (Hne : [PStr EmptyString; PStr EmptyString] <> []) by discriminate.
  assert (Hfalsy : Forall (fun source => truthy source = false)
                          [PStr EmptyString; PStr EmptyString])
    by (repeat constructor).
  split; [exact Hne|]. split; [exact Hfalsy|].
  exact (C10_all_falsy_sources_load_nothing [PStr EmptyString; PStr EmptyString] Hne Hfalsy).
Defined.

End LoaderExamples.

(* ===================================================================== *)
(** * Properties of the graph builder                                      *)
(* ===================================================================== *)

Section GraphBuilderFacts.
Context {R L : Type} `{!Retriever R} `{!LanguageModel L}.

(** After the first [add_node] the name "retriever" is taken, so the
    second one raises and no later builder call is reached. *)
Lemma wire_raises :
  GraphBuilder.wire (R := R) (L := L) =
  Raise (ValueError "Node `retriever` already present.").
Proof. reflexivity. Qed.

(** The name "responder", used by both edges, is never registered: the
    graph would not pass validation even if a node could be registered
    twice. *)
Lemma responder_never_registered (a b : LangGraph.action) :
  LangGraph.validate
    (LangGraph.mkStateGraph
       [("retriever", a); ("retriever", b)]
       [(LangGraph.START, "retriever"); ("retriever", "responder");
        ("responder", LangGraph.END)])
  = Raise (ValueError "Found edge starting at unknown node 'responder'").
Proof. reflexivity. Qed.

Lemma build_raises (self : GraphBuilder.GraphBuilder) :
  GraphBuilder.build (R := R) (L := L) self =
  (Raise (ValueError "Node `retriever` already present."), self).
Proof. reflexivity. Qed.

(** C1 (defect in graph_builder/graph_builder.py).  On a new
    [GraphBuilder], [run(query)] returns no state for any query: it calls
    [build], which registers the name "retriever" twice (the second stage
    was meant to be "responder") and raises; [self.graph] stays [None],
    so every later [run] fails in the same way. *)
Theorem C1_run_raises_on_every_query (retriver : R) (llm : L) (query : string) :
  GraphBuilder.run (R := R) (L := L) (GraphBuilder.init retriver llm) query
  = (Raise (ValueError "Node `retriever` already present."),
     GraphBuilder.init retriver llm).
Proof. reflexivity. Qed.

End GraphBuilderFacts.

(* ===================================================================== *)
(** * Properties of the text splitter                                      *)
(* ===================================================================== *)

Section LayoutFacts.
Import TextSplitter.
Context {char : Type} `{!Characters char}.
Local Abbreviation chars := (TextSplitter.chars char).
Local Open Scope list_scope.

(** ** Windows and slices *)

Lemma slice_app_l (T1 T2 : chars) (w : window) :
  (w.2 <= length T1)%nat -> slice w (T1 ++ T2) = slice w T1.
Proof.
  destruct w as [a b]. unfold slice. simpl. intros Hb.
  destruct (decide (a <= b)%nat) as [Hab|Hab].
  - rewrite drop_app_le by lia. apply take_app_le. rewrite length_drop. lia.
  - replace (b - a)%nat with 0%nat by lia. by rewrite !take_0.
Qed.

Lemma slice_shift (T1 T2 : chars) (w : window) :
  slice (shift (length T1) w) (T1 ++ T2) = slice w T2.
Proof.
  destruct w as [a b]. unfold slice, shift. simpl.
  rewrite drop_app_add. f_equal. lia.
Qed.

Lemma slice_middle (pre x post : chars) :
  slice (length pre, length pre + length x)%nat (pre ++ x ++ post) = x.
Proof.
  unfold slice. simpl. rewrite drop_app_length.
  replace (length pre + length x - length pre)%nat with (length x) by lia.
  apply take_app_length.
Qed.

Lemma length_slice (w : window) (text : chars) :
  (length (slice w text) <= w.2 - w.1)%nat.
Proof. unfold slice. rewrite length_take. lia. Qed.

Lemma length_lstrip (s : chars) : (length (lstrip s) <= length s)%nat.
Proof.
  induction s as [|c s IH]; simpl; [lia|].
  destruct (is_space c); simpl; lia.
Qed.

Lemma length_strip (s : chars) : (length (strip s) <= length s)%nat.
Proof.
  unfold strip, rstrip. rewrite length_rev.
  etrans; [apply length_lstrip|]. rewrite length_rev. apply length_lstrip.
Qed.

Lemma cut_from_length (text : chars) (w : window) (chunk : chars) :
  cut_from text w chunk -> (length chunk <= w.2 - w.1)%nat.
Proof.
  intros [_ [-> | ->]].
  - apply length_slice.
  - etrans; [apply length_strip | apply length_slice].
Qed.

Lemma cut_from_app_l (T1 T2 : chars) (w : window) (chunk : chars) :
  cut_from T1 w chunk -> cut_from (T1 ++ T2) w chunk.
Proof.
  intros [Hw Hc]. split.
  - rewrite length_app. lia.
  - rewrite slice_app_l by lia. exact Hc.
Qed.

Lemma cut_from_app_r (T1 T2 : chars) (w : window) (chunk : chars) :
  cut_from T2 w chunk -> cut_from (T1 ++ T2) (shift (length T1) w) chunk.
Proof.
  intros [Hw Hc]. split.
  - rewrite length_app. unfold shift. simpl. lia.
  - rewrite slice_shift. exact Hc.
Qed.

Lemma cut_from_within (text : chars) (ws : list window) (chunks : list chars) :
  Forall2 (cut_from text) ws chunks ->
  Forall (fun w => (w.1 <= w.2 <= length text)%nat) ws.
Proof.
  induction 1 as [|w c ws cs [Hw _] _ IH]; constructor; auto.
Qed.

(** ** Chains of windows *)

Lemma chained_cons (ov : Z) (w : window) (ws : list window) :
  chained ov (w :: ws) <->
  (forall w2, head ws = Some w2 -> link ov w w2) /\ chained ov ws.
Proof.
  destruct ws as [|w2 ws]; simpl.
  - split; [intros _; split; [discriminate|exact I] | auto].
  - split.
    + intros [Hl Hc]. split; [by intros ? [= <-] | exact Hc].
    + intros [Hl Hc]. split; [by apply Hl | exact Hc].
Qed.

Lemma chained_app (ov : Z) (ws1 ws2 : list window) :
  chained ov ws1 -> chained ov ws2 ->
  (forall w1 w2, last ws1 = Some w1 -> head ws2 = Some w2 -> link ov w1 w2) ->
  chained ov (ws1 ++ ws2).
Proof.
  induction ws1 as [|w ws1 IH]; intros H1 H2 Hseam; [exact H2|].
  change ((w :: ws1) ++ ws2) with (w :: (ws1 ++ ws2)).
  apply chained_cons in H1 as [Hhead H1]. apply chained_cons. split.
  - intros w2 Hw2. destruct ws1 as [|w' ws1].
    + apply Hseam; [reflexivity | exact Hw2].
    + apply Hhead. simpl in *. exact Hw2.
  - apply IH; [exact H1 | exact H2 |].
    intros w1 w2 Hl Hh. apply Hseam; [|exact Hh].
    destruct ws1 as [|w' ws1]; [discriminate|].
    by rewrite last_cons_cons.
Qed.

Lemma chained_snoc (ov : Z) (ws : list window) (w : window) :
  chained ov ws ->
  (forall w1, last ws = Some w1 -> link ov w1 w) ->
  chained ov (ws ++ [w]).
Proof.
  intros Hc Hl. apply chained_app; [exact Hc | exact I |].
  intros w1 w2 Hw1 [= <-]. by apply Hl.
Qed.

Lemma chained_shift (ov : Z) (n : nat) (ws : list window) :
  chained ov ws -> chained ov (map (shift n) ws).
Proof.
  induction ws as [|w1 [|w2 ws] IH]; [done..|].
  intros [Hl Hc]. split; [|by apply IH].
  destruct Hl as (H1 & H2 & H3). unfold link, shift. simpl. lia.
Qed.

(** ** Laying chunks over a text *)

Lemma laid_out_nil (size ov : Z) (text : chars) : laid_out size ov text [].
Proof. exists []. split; [constructor|]. split; [constructor | exact I]. Qed.

(** Chunks laid over two texts lie over their concatenation. *)
Lemma laid_out_app (size ov : Z) (T1 T2 : chars) (c1 c2 : list chars) :
  (0 <= ov)%Z ->
  laid_out size ov T1 c1 -> laid_out size ov T2 c2 ->
  laid_out size ov (T1 ++ T2) (c1 ++ c2).
Proof.
  intros Hov (ws1 & Hcut1 & Hsize1 & Hch1) (ws2 & Hcut2 & Hsize2 & Hch2).
  exists (ws1 ++ map (shift (length T1)) ws2). split; [|split].
  - apply Forall2_app.
    + eapply Forall2_impl; [exact Hcut1|]. intros w c. apply cut_from_app_l.
    + apply Forall2_fmap_l.
      eapply Forall2_impl; [exact Hcut2|]. intros w c. apply cut_from_app_r.
  - apply Forall_app. split; [exact Hsize1|].
    apply Forall_fmap. eapply Forall_impl; [exact Hsize2|].
    intros [a b]. unfold shift. simpl. intros H.
    replace (length T1 + b - (length T1 + a))%nat with (b - a)%nat by lia.
    exact H.
  - apply chained_app; [exact Hch1 | by apply chained_shift |].
    intros [a1 b1] w2 Hlast Hhead.
    assert (Hb1 : (a1 <= b1 <= length T1)%nat).
    { apply last_Some_elem_of in Hlast.
      apply cut_from_within in Hcut1. rewrite Forall_forall in Hcut1.
      exact (Hcut1 _ Hlast). }
    destruct ws2 as [|[a2 b2] ws2]; [discriminate|].
    injection Hhead as <-.
    apply Forall2_cons_inv_l in Hcut2 as (c & cs & [Hw _] & _ & _).
    unfold link, shift. simpl in *. lia.
Qed.

Lemma laid_out_length (size ov : Z) (text : chars) (chunks : list chars) :
  laid_out size ov text chunks ->
  Forall (fun chunk => (len chunk <= size)%Z) chunks.
Proof.
  intros (ws & Hcut & Hsize & _).
  induction Hcut as [|w c ws cs Hwc _ IH]; [constructor|].
  apply Forall_cons in Hsize as [Hw Hsize].
  constructor; [|by apply IH].
  apply cut_from_length in Hwc. unfold len. lia.
Qed.

End LayoutFacts.

Section SplittingFacts.
Import TextSplitter.
Context {char : Type} `{!Characters char}.
Local Abbreviation chars := (TextSplitter.chars char).
Local Open Scope list_scope.

(** ** Splitting keeps every character *)

Lemma split_go_concat (sep text : chars) :
  forall (skip : nat) (cur : chars),
    concat (split_go sep skip cur text) = cur ++ text.
Proof.
  induction text as [|c rest IH]; intros skip cur; simpl.
  - reflexivity.
  - destruct skip as [|k].
    + destruct (starts_with sep (c :: rest)); simpl.
      * by rewrite IH.
      * by rewrite IH, <- app_assoc.
    + by rewrite IH, <- app_assoc.
Qed.

Lemma concat_filter_nonempty (pieces : list chars) :
  concat (filter (fun s => s <> []) pieces) = concat pieces.
Proof.
  induction pieces as [|s pieces IH]; [reflexivity|].
  rewrite filter_cons. case_decide as Hs.
  - simpl. by f_equal.
  - subst s. exact IH.
Qed.

Lemma concat_singletons (text : chars) :
  concat (map (fun c => [c]) text) = text.
Proof. induction text as [|c text IH]; simpl; [reflexivity | by rewrite IH]. Qed.

(** The pieces of a text, put together again, are the text. *)
Lemma split_concat (text separator : chars) :
  concat (_split_text_with_regex text separator) = text.
Proof.
  unfold _split_text_with_regex. rewrite concat_filter_nonempty.
  destruct (is_empty separator).
  - apply concat_singletons.
  - apply split_go_concat.
Qed.

(** With the empty separator every piece is one character. *)
Lemma split_empty_separator (text : chars) :
  Forall (fun s => length s = 1%nat) (_split_text_with_regex text []).
Proof.
  unfold _split_text_with_regex. simpl.
  apply Forall_forall. intros s [_ Hs]%list_elem_of_filter.
  apply list_elem_of_fmap in Hs as (c & -> & _). reflexivity.
Qed.

Lemma join_chars_nil (docs : list chars) : join_chars [] docs = concat docs.
Proof.
  induction docs as [|d [|d' docs] IH]; simpl in *.
  - reflexivity.
  - by rewrite app_nil_r.
  - by rewrite IH.
Qed.

Lemma len_app (a b : chars) : len (a ++ b) = (len a + len b)%Z.
Proof. unfold len. rewrite length_app. lia. Qed.

Lemma len_nonneg (a : chars) : (0 <= len a)%Z.
Proof. unfold len. lia. Qed.

Lemma sep_if_0 (b : bool) : sep_if b 0 = 0%Z.
Proof. by destruct b. Qed.

End SplittingFacts.

Section MergeFacts.
Import TextSplitter.
Context {char : Type} `{!Characters char}.
Local Abbreviation chars := (TextSplitter.chars char).
Local Open Scope list_scope.
Local Open Scope Z_scope.

Variable self : TextSplitter char.
Hypothesis size_positive : 0 < _chunk_size self.
Hypothesis overlap_nonneg : 0 <= _chunk_overlap self.

Let size := _chunk_size self.
Let ov := _chunk_overlap self.

(** The [while] loop on pieces kept without separator: it returns a
    tail of [current_doc] of at most [chunk_overlap] characters that,
    unless empty, leaves room for the next piece. *)
Lemma pop_loop_spec (l : Z) (current_doc : list chars) :
  exists dropped kept : list chars,
    current_doc = dropped ++ kept /\
    pop_loop self 0 l current_doc (len (concat current_doc))
      = Ok (kept, len (concat kept)) /\
    len (concat kept) <= ov /\
    (len (concat kept) + l <= size \/ len (concat kept) = 0).
Proof.
  induction current_doc as [|first rest IH].
  - exists [], []. split; [reflexivity|]. simpl.
    change (len []) with 0.
    replace (0 >? _chunk_overlap self) with false by (symmetry; lia).
    rewrite andb_false_r. simpl. repeat split; [exact overlap_nonneg | by right].
  - destruct IH as (dropped & kept & Hsplit & Hpop & Hov & Hroom).
    cbn [pop_loop]. rewrite !sep_if_0.
    destruct ((len (concat (first :: rest)) >? _chunk_overlap self)
              || ((len (concat (first :: rest)) + l + 0 >? _chunk_size self)
                  && (len (concat (first :: rest)) >? 0))) eqn:Hcond.
    + exists (first :: dropped), kept. split; [by rewrite Hsplit|].
      split; [|split; assumption].
      replace (len (concat (first :: rest)) - (len first + 0))
        with (len (concat rest)); [exact Hpop|].
      simpl. rewrite len_app. lia.
    + exists [], (first :: rest). split; [reflexivity|]. split; [reflexivity|].
      apply orb_false_iff in Hcond as [H1 H2].
      pose proof (len_nonneg (concat (first :: rest))).
      apply andb_false_iff in H2. subst size ov. split; [lia|].
      destruct H2; [left|right]; lia.
Qed.

(** One step of the [for] loop of [_merge_splits] without separator. *)
Lemma merge_loop_cons (d : chars) (rest docs current_doc : list chars) (total : Z) :
  merge_loop self [] (d :: rest) docs current_doc total =
  if (total + len d >? size) && (0 <? length current_doc)%nat then
    '(kept, total') ← pop_loop self 0 (len d) current_doc total;
    merge_loop self [] rest (append_doc docs (_join_docs current_doc []))
               (kept ++ [d]) (total' + len d)
  else merge_loop self [] rest docs (current_doc ++ [d]) (total + len d).
Proof.
  cbn [merge_loop]. change (len []) with 0. rewrite !sep_if_0.
  rewrite !Z.add_0_r. subst size.
  destruct (total + len d >? _chunk_size self); simpl;
    [|by rewrite sep_if_0, Z.add_0_r].
  destruct (0 <? length current_doc)%nat; simpl;
    [|by rewrite sep_if_0, Z.add_0_r].
  destruct (pop_loop self 0 (len d) current_doc total) as [[kept total']|e];
    simpl; [|reflexivity].
  by rewrite sep_if_0, Z.add_0_r.
Qed.

(** Emitting the current document adds one window, or none when only
    white space is left. *)
Lemma emit_spec (T pre post : chars) (current_doc docs : list chars)
      (ws : list window) :
  T = pre ++ concat current_doc ++ post ->
  len (concat current_doc) <= size ->
  Forall2 (cut_from T) ws docs ->
  Forall (fun w => Z.of_nat (w.2 - w.1) <= size) ws ->
  chained ov ws ->
  (forall w, last ws = Some w ->
             (w.1 <= length pre)%nat /\
             (w.2 <= length pre + length (concat current_doc))%nat /\
             Z.of_nat w.2 <= Z.of_nat (length pre) + ov) ->
  exists ws' : list window,
    Forall2 (cut_from T) ws' (append_doc docs (_join_docs current_doc [])) /\
    Forall (fun w => Z.of_nat (w.2 - w.1) <= size) ws' /\
    chained ov ws' /\
    (forall w, last ws' = Some w ->
               (w.1 <= length pre)%nat /\
               (w.2 <= length pre + length (concat current_doc))%nat).
Proof.
  intros HT Hlen Hcut Hsize Hch Hfits.
  unfold _join_docs. rewrite join_chars_nil.
  destruct (strip (concat current_doc)) as [|c text] eqn:Hstrip; simpl.
  - exists ws. repeat split; try assumption; by apply Hfits.
  - set (w := (length pre, (length pre + length (concat current_doc))%nat)).
    exists (ws ++ [w]). split; [|split; [|split]].
    + apply Forall2_app; [exact Hcut|]. constructor; [|constructor].
      split.
      * subst T w. simpl. rewrite !length_app. lia.
      * right. subst T w. rewrite slice_middle. by rewrite Hstrip.
    + apply Forall_app. split; [exact Hsize|]. constructor; [|constructor].
      subst w. simpl. unfold len in Hlen. lia.
    + apply chained_snoc; [exact Hch|].
      intros w1 Hw1. destruct (Hfits w1 Hw1) as (H1 & H2 & H3).
      subst w. unfold link. simpl. lia.
    + intros w'. rewrite last_snoc. intros [= <-]. subst w. simpl. lia.
Qed.

(** The loop of [_merge_splits], from any state that satisfies its
    invariant: [T] is the text before the current document, the current
    document and the pieces to come; the windows emitted so far are
    chained and the last one reaches at most [chunk_overlap] characters
    into the current document. *)
Lemma merge_loop_spec (rest : list chars) :
  forall (T pre : chars) (current_doc docs : list chars) (ws : list window),
    T = pre ++ concat current_doc ++ concat rest ->
    Forall (fun d => len d <= size) rest ->
    len (concat current_doc) <= size ->
    Forall2 (cut_from T) ws docs ->
    Forall (fun w => Z.of_nat (w.2 - w.1) <= size) ws ->
    chained ov ws ->
    (forall w, last ws = Some w ->
               (w.1 <= length pre)%nat /\
               (w.2 <= length pre + length (concat current_doc))%nat /\
               Z.of_nat w.2 <= Z.of_nat (length pre) + ov) ->
    exists (docs' : list chars) (ws' : list window),
      merge_loop self [] rest docs current_doc (len (concat current_doc))
        = Ok docs' /\
      Forall2 (cut_from T) ws' docs' /\
      Forall (fun w => Z.of_nat (w.2 - w.1) <= size) ws' /\
      chained ov ws'.
Proof.
  induction rest as [|d rest IH];
    intros T pre cur docs ws HT Hrest Hlen Hcut Hsize Hch Hfits.
  - destruct (emit_spec T pre [] cur docs ws) as (ws' & H1 & H2 & H3 & _);
      try assumption.
    exists (append_doc docs (_join_docs cur [])), ws'. by repeat split.
  - apply Forall_cons in Hrest as [Hd Hrest].
    rewrite merge_loop_cons.
    destruct ((len (concat cur) + len d >? size) && (0 <? length cur)%nat)
      eqn:Hcond.
    + destruct (pop_loop_spec (len d) cur)
        as (dropped & kept & Hsplit & Hpop & Hkept & Hroom).
      rewrite Hpop. simpl.
      destruct (emit_spec T pre (concat (d :: rest)) cur docs ws)
        as (ws' & H1 & H2 & H3 & H4); try assumption.
      replace (len (concat kept) + len d) with (len (concat (kept ++ [d])))
        by (rewrite concat_app, len_app; simpl; rewrite app_nil_r; lia).
      assert (Hcur : concat cur = concat dropped ++ concat kept)
        by (by rewrite Hsplit, concat_app).
      apply (IH T (pre ++ concat dropped) (kept ++ [d])
                (append_doc docs (_join_docs cur [])) ws'); try assumption.
      * rewrite HT, Hcur, concat_app. simpl. rewrite app_nil_r.
        by rewrite <- !app_assoc.
      * rewrite concat_app, len_app. simpl. rewrite app_nil_r.
        pose proof (len_nonneg d). pose proof (len_nonneg (concat kept)).
        destruct Hroom; lia.
      * intros w Hw. destruct (H4 w Hw) as [Ha Hb].
        rewrite Hcur, length_app in Hb.
        rewrite !length_app, concat_app, length_app. unfold len in Hkept.
        split; [lia|]. split; lia.
    + replace (len (concat cur) + len d) with (len (concat (cur ++ [d])))
        by (rewrite concat_app, len_app; simpl; rewrite app_nil_r; lia).
      apply (IH T pre (cur ++ [d]) docs ws); try assumption.
      * rewrite HT, concat_app. simpl. rewrite app_nil_r.
        by rewrite <- !app_assoc.
      * rewrite concat_app, len_app. simpl. rewrite app_nil_r.
        apply andb_false_iff in Hcond as [Hcond|Hcond]; [lia|].
        destruct cur; [|discriminate].
        simpl. change (len []) with 0. lia.
      * intros w Hw. destruct (Hfits w Hw) as (Ha & Hb & Hc).
        rewrite concat_app, length_app. split; [lia|]. split; lia.
Qed.

(** [_merge_splits] on pieces no longer than [chunk_size]: the chunks
    lie over the concatenation of the pieces. *)
Lemma merge_splits_spec (splits : list chars) :
  Forall (fun d => len d <= size) splits ->
  exists docs : list chars,
    _merge_splits self splits [] = Ok docs /\
    laid_out size ov (concat splits) docs.
Proof.
  intros Hsplits.
  assert (Hstart : len (concat (@nil chars)) <= size)
    by (change (len (concat (@nil chars))) with 0; subst size; lia).
  assert (Hfits : forall w : window,
             last [] = Some w ->
             (w.1 <= length (@nil char))%nat /\
             (w.2 <= length (@nil char) + length (concat (@nil chars)))%nat /\
             Z.of_nat w.2 <= Z.of_nat (length (@nil char)) + ov)
    by (intros w; discriminate).
  destruct (merge_loop_spec splits (concat splits) [] [] [] []
              eq_refl Hsplits Hstart
              ltac:(constructor) ltac:(constructor) I Hfits)
    as (docs & ws & Hrun & Hcut & Hsize & Hch).
  exists docs. split; [exact Hrun|]. by exists ws.
Qed.

End MergeFacts.

Section RecursiveFacts.
Import TextSplitter.
Context {char : Type} `{!Characters char}.
Local Abbreviation chars := (TextSplitter.chars char).
Local Open Scope list_scope.
Local Open Scope Z_scope.

Variable self : TextSplitter char.
Hypothesis size_positive : 0 < _chunk_size self.
Hypothesis overlap_nonneg : 0 <= _chunk_overlap self.

Let size := _chunk_size self.
Let ov := _chunk_overlap self.

(** A piece that fits is a chunk of its own. *)
Lemma laid_out_single (s : chars) :
  len s <= size -> laid_out size ov s [s].
Proof.
  intros Hs. exists [(0%nat, length s)]. split; [|split].
  - constructor; [|constructor]. split; [simpl; lia|].
    left. unfold slice. simpl. rewrite Nat.sub_0_r. by rewrite take_ge.
  - constructor; [|constructor]. simpl. unfold len in Hs. lia.
  - exact I.
Qed.

(** Flushing the good pieces extends the layout by their text. *)
Lemma flush_spec (good final_chunks : list chars) (Tdone : chars) :
  laid_out size ov Tdone final_chunks ->
  Forall (fun s => len s < size) good ->
  exists out : list chars,
    flush self good final_chunks = Ok out /\
    laid_out size ov (Tdone ++ concat good) out.
Proof.
  intros Hdone Hgood. unfold flush.
  destruct good as [|g good]; simpl is_empty; cbv iota.
  - exists final_chunks. split; [reflexivity|]. simpl. by rewrite app_nil_r.
  - destruct (merge_splits_spec self size_positive overlap_nonneg (g :: good))
      as (merged & Hrun & Hlaid).
    { eapply Forall_impl; [exact Hgood|]. subst size. simpl. intros; lia. }
    rewrite Hrun. simpl. exists (final_chunks ++ merged).
    split; [reflexivity|]. by apply laid_out_app.
Qed.

(** The loop over the pieces of a text.  [deeper], when present, lays
    out any text; when absent every piece fits in a chunk. *)
Lemma pieces_loop_spec (deeper : option (chars -> result (list chars))) :
  (forall f, deeper = Some f ->
             forall s, exists chunks, f s = Ok chunks /\ laid_out size ov s chunks) ->
  forall (splits good final_chunks : list chars) (Tdone : chars),
    (deeper = None -> Forall (fun s => len s <= size) splits) ->
    laid_out size ov Tdone final_chunks ->
    Forall (fun s => len s < size) good ->
    exists out : list chars,
      pieces_loop self deeper splits good final_chunks = Ok out /\
      laid_out size ov (Tdone ++ concat good ++ concat splits) out.
Proof.
  intros Hdeeper. induction splits as [|s rest IH];
    intros good final_chunks Tdone Hfit Hdone Hgood.
  - simpl. rewrite app_nil_r. by apply flush_spec.
  - cbn [pieces_loop]. destruct (len s <? _chunk_size self) eqn:Hs.
    + destruct (IH (good ++ [s]) final_chunks Tdone) as (out & Hrun & Hlaid).
      * intros Hnone. specialize (Hfit Hnone). by apply Forall_cons in Hfit as [_ ?].
      * exact Hdone.
      * apply Forall_app. split; [exact Hgood|]. constructor; [|constructor].
        subst size. lia.
      * exists out. split; [exact Hrun|].
        rewrite concat_app in Hlaid. simpl in Hlaid. rewrite app_nil_r in Hlaid.
        simpl. by rewrite <- !app_assoc in Hlaid.
    + destruct (flush_spec good final_chunks Tdone Hdone Hgood)
        as (flushed & Hflush & Hflushed).
      rewrite Hflush. simpl.
      assert (Hpiece : exists chunks,
                 match deeper with
                 | None => Ok (flushed ++ [s])
                 | Some recurse => other_info ← recurse s; Ok (flushed ++ other_info)
                 end = Ok (flushed ++ chunks) /\
                 laid_out size ov s chunks).
      { destruct deeper as [f|].
        - destruct (Hdeeper f eq_refl s) as (chunks & Hf & Hchunks).
          exists chunks. rewrite Hf. by split.
        - exists [s]. split; [reflexivity|]. apply laid_out_single.
          specialize (Hfit eq_refl). by apply Forall_cons in Hfit as [? _]. }
      destruct Hpiece as (chunks & Hstep & Hchunks). rewrite Hstep. simpl.
      destruct (IH [] (flushed ++ chunks) ((Tdone ++ concat good) ++ s))
        as (out & Hrun & Hlaid).
      * intros Hnone. specialize (Hfit Hnone). by apply Forall_cons in Hfit as [_ ?].
      * by apply laid_out_app.
      * constructor.
      * exists out. split; [exact Hrun|]. simpl in *.
        by rewrite <- !app_assoc in Hlaid.
Qed.

(** Splitting on one separator lays the chunks over the whole text. *)
Lemma split_with_spec (deeper : option (chars -> result (list chars)))
      (separator text : chars) :
  (forall f, deeper = Some f ->
             forall s, exists chunks, f s = Ok chunks /\ laid_out size ov s chunks) ->
  (deeper = None ->
   Forall (fun s => len s <= size) (_split_text_with_regex text separator)) ->
  exists out : list chars,
    split_with self deeper separator text = Ok out /\
    laid_out size ov text out.
Proof.
  intros Hdeeper Hfit. unfold split_with.
  destruct (pieces_loop_spec deeper Hdeeper
              (_split_text_with_regex text separator) [] [] [] Hfit
              (laid_out_nil _ _ _) ltac:(constructor)) as (out & Hrun & Hlaid).
  exists out. split; [exact Hrun|].
  simpl in Hlaid. by rewrite split_concat in Hlaid.
Qed.

(** [_split_text] over separators that include the empty one. *)
Lemma split_text_from_spec (final : chars) (separators : list chars) :
  [] ∈ separators ->
  forall text : chars,
    exists out : list chars,
      split_text_from self final separators text = Ok out /\
      laid_out size ov text out.
Proof.
  induction separators as [|_s rest IH]; intros Hin text.
  - by apply elem_of_nil in Hin.
  - cbn [split_text_from]. destruct _s as [|c _s]; simpl is_empty; cbv iota.
    + apply split_with_spec; [discriminate|]. intros _.
      eapply Forall_impl; [apply split_empty_separator|].
      intros s Hs. unfold len. rewrite Hs. subst size. lia.
    + apply elem_of_cons in Hin as [Hin|Hin]; [discriminate|].
      destruct (contains (c :: _s) text).
      * apply split_with_spec.
        -- intros f Hf s. destruct rest as [|r rest]; [discriminate|].
           injection Hf as <-. by apply IH.
        -- destruct rest as [|r rest]; [by apply elem_of_nil in Hin|discriminate].
      * by apply IH.
Qed.

(** [split_text] with the default separators returns chunks laid over
    the text. *)
Lemma split_text_spec (text : chars) :
  _separators self = default_separators ->
  exists out : list chars,
    split_text self text = Ok out /\ laid_out size ov text out.
Proof.
  intros Hsep. unfold split_text, _split_text. rewrite Hsep. simpl last.
  apply split_text_from_spec. unfold default_separators.
  rewrite !elem_of_cons. auto.
Qed.

End RecursiveFacts.

Section SplitDocumentsFacts.
Import TextSplitter.
Context {char : Type} `{!Characters char}.
Local Abbreviation chars := (TextSplitter.chars char).
Local Open Scope list_scope.
Local Open Scope Z_scope.

(** What a successfully built processor holds. *)
Lemma init_ok (chunk_size chunk_overlap : Z)
      (dp : DocumentProcessor.DocumentProcessor char) :
  DocumentProcessor.init chunk_size chunk_overlap = Ok dp ->
  dp = DocumentProcessor.mkDocumentProcessor chunk_size chunk_overlap
         (mkTextSplitter chunk_size chunk_overlap default_separators) /\
  0 < chunk_size /\ 0 <= chunk_overlap <= chunk_size.
Proof.
  unfold DocumentProcessor.init, init.
  destruct (chunk_size <=? 0) eqn:H1; [discriminate|].
  destruct (chunk_overlap <? 0) eqn:H2; [discriminate|].
  destruct (chunk_overlap >? chunk_size) eqn:H3; [discriminate|].
  simpl. intros [= <-]. split; [reflexivity|]. lia.
Qed.

(** The splitter's [split_documents]: the chunks of each document, in
    document order, each list laid over its document's text. *)
Lemma splitter_split_documents_spec (self : TextSplitter char)
      (documents : list Document) :
  0 < _chunk_size self -> 0 <= _chunk_overlap self ->
  _separators self = default_separators ->
  exists per_doc : list (list chars),
    TextSplitter.split_documents self documents
      = Ok (concat (zip_with as_documents documents per_doc)) /\
    Forall2 (fun doc chunks =>
               laid_out (_chunk_size self) (_chunk_overlap self)
                        (characters (page_content doc)) chunks)
            documents per_doc.
Proof.
  intros Hsize Hov Hsep. induction documents as [|doc rest IH].
  - exists []. split; [reflexivity | constructor].
  - destruct IH as (per_rest & Hrest & Hlaid_rest).
    destruct (split_text_spec self Hsize Hov
                (characters (page_content doc)) Hsep)
      as (chunks & Hchunks & Hlaid).
    exists (chunks :: per_rest). split; [|by constructor].
    cbn [TextSplitter.split_documents]. unfold chunks_of.
    rewrite Hchunks. simpl. rewrite Hrest. reflexivity.
Qed.

(** C5, as the code has it.  For a processor built with valid sizes and
    a non-empty list of documents, [split_documents] returns the chunks
    of each document in order.  Every chunk is at most [chunk_size]
    characters long: characters as Python's [len] counts them, whatever
    the characters of the texts are.  The chunks of one document are
    cut, in order, from windows of at most [chunk_size] characters of
    its text, and two consecutive windows overlap by at most
    [chunk_overlap] characters: the overlap may be smaller, and may be
    empty. *)
Theorem C5_chunks_fit_and_overlap_at_most
        (chunk_size chunk_overlap : Z)
        (dp : DocumentProcessor.DocumentProcessor char)
        (documents : list Document) :
  DocumentProcessor.init chunk_size chunk_overlap = Ok dp ->
  documents <> [] ->
  exists per_doc : list (list chars),
    DocumentProcessor.split_documents dp documents
      = Ok (concat (zip_with as_documents documents per_doc)) /\
    Forall2 (fun doc chunks =>
               laid_out chunk_size chunk_overlap
                        (characters (page_content doc)) chunks)
            documents per_doc /\
    Forall (fun chunk => len (characters (page_content chunk)) <= chunk_size)
           (concat (zip_with as_documents documents per_doc)).
Proof.
  intros Hinit Hne. apply init_ok in Hinit as (-> & Hsize & Hov & _).
  destruct (splitter_split_documents_spec
              (mkTextSplitter chunk_size chunk_overlap default_separators)
              documents Hsize Hov eq_refl) as (per_doc & Hrun & Hlaid).
  exists per_doc. split; [|split; [exact Hlaid|]].
  - unfold DocumentProcessor.split_documents.
    destruct documents as [|doc rest]; [done | exact Hrun].
  - simpl in Hlaid. clear Hrun Hne.
    induction Hlaid as [|doc chunks docs per Hdoc _ IH]; [constructor|].
    simpl. apply Forall_app. split; [|exact IH].
    apply laid_out_length in Hdoc. unfold as_documents.
    apply Forall_fmap. eapply Forall_impl; [exact Hdoc|].
    intros c Hc. simpl. rewrite characters_text_of. exact Hc.
Qed.

End SplitDocumentsFacts.

Section SplitDocumentsExamples.
Import TextSplitter.
#[local] Existing Instance Doubles.below_256.
Local Abbreviation chars := (TextSplitter.chars ascii).
Local Open Scope list_scope.
Local Open Scope Z_scope.

(** C5 as the specification words it fails: with [chunk_size = 10] and
    [chunk_overlap = 3] the text "aaaa bbbb cccc dddd eeee" gives three
    chunks; the first two, neither of them the last, have no character
    in common end to start, where the specification asks for exactly
    three. *)
Lemma C5_overlap_not_exact_counterexample :
  exists dp : DocumentProcessor.DocumentProcessor ascii,
    DocumentProcessor.init 10 3 = Ok dp /\
    DocumentProcessor.split_documents dp [Doubles.five_words]
      = Ok [mkDocument "aaaa bbbb" ∅; mkDocument "cccc dddd" ∅;
            mkDocument "eeee" ∅] /\
    common (list_ascii_of_string "aaaa bbbb") (list_ascii_of_string "cccc dddd")
      = 0%nat /\
    common (list_ascii_of_string "aaaa bbbb") (list_ascii_of_string "cccc dddd")
      <> 3%nat.
Proof.
  eexists. split; [reflexivity|]. split; [vm_compute; reflexivity|].
  split; [vm_compute; reflexivity | vm_compute; discriminate].
Qed.

(** C5 at work on the five words. *)
Lemma C5_chunks_fit_and_overlap_at_most_witness :
  DocumentProcessor.init 10 3
    = Ok (DocumentProcessor.mkDocumentProcessor 10 3
            (mkTextSplitter 10 3 default_separators)) /\
  [Doubles.five_words] <> [] /\
  exists per_doc : list (list chars),
    DocumentProcessor.split_documents
      (DocumentProcessor.mkDocumentProcessor 10 3
         (mkTextSplitter 10 3 default_separators))
      [Doubles.five_words]
      = Ok (concat (zip_with as_documents [Doubles.five_words] per_doc)) /\
    Forall (fun chunk => len (characters (page_content chunk)) <= 10)
           (concat (zip_with as_documents [Doubles.five_words] per_doc)).
Proof.
  assert (Hinit : DocumentProcessor.init 10 3
                  = Ok (DocumentProcessor.mkDocumentProcessor 10 3
                          (mkTextSplitter 10 3 default_separators)))
    by reflexivity.
  assert (Hne : [Doubles.five_words] <> []) by discriminate.
  split; [exact Hinit|]. split; [exact Hne|].
  destruct (C5_chunks_fit_and_overlap_at_most 10 3 _ [Doubles.five_words]
              Hinit Hne) as (per_doc & Hrun & _ & Hfit).
  exists per_doc. split; [exact Hrun | exact Hfit].
Defined.

(** A letter outside ASCII is one character: with [chunk_size = 10] and
    no overlap the first two accented words, nine characters, make one
    chunk. *)
Lemma split_accented :
  exists dp : DocumentProcessor.DocumentProcessor ascii,
    DocumentProcessor.init 10 0 = Ok dp /\
    DocumentProcessor.split_documents dp [Doubles.accented]
      = Ok [mkDocument (Doubles.accented_word 4 ++ " " ++ Doubles.accented_word 4)%string ∅;
            mkDocument (Doubles.accented_word 2) ∅].
Proof.
  eexists. split; [reflexivity|]. vm_compute. reflexivity.
Qed.

End SplitDocumentsExamples.

(* ===================================================================== *)
(** * Further properties of the loaders                                    *)
(* ===================================================================== *)

Section LoaderOutcomes.
Import DocumentProcessor Loading.
Context `{!Outside}.




End LoaderOutcomes.

Section LoaderBatches.
Import DocumentProcessor Loading.
Local Open Scope list_scope.
Context `{!Outside}.

(** ** The monad of the loaders *)

Lemma io_bind_assoc {A B C : Type} (m : io A) (k : A -> io B) (k' : B -> io C) :
  io_bind (io_bind m k) k' = io_bind m (fun a => io_bind (k a) k').
Proof.
  destruct m as [log [a|e]]; simpl; [|reflexivity].
  destruct (k a) as [log1 [b|e]]; simpl; [|reflexivity].
  destruct (k' b) as [log2 r]. by rewrite app_assoc.
Qed.

Lemma io_bind_ext {A B : Type} (m : io A) (k k' : A -> io B) :
  (forall a, k a = k' a) -> io_bind m k = io_bind m k'.
Proof. intros Hk. destruct m as [log [a|e]]; simpl; by rewrite ?Hk. Qed.

Lemma io_bind_ret_l {A B : Type} (a : A) (k : A -> io B) :
  io_bind (io_ret a) k = k a.
Proof. unfold io_ret. simpl. by destruct (k a). Qed.

Lemma io_map_bind {A B C : Type} (f : B -> C) (m : io A) (k : A -> io B) :
  io_map f (io_bind m k) = io_bind m (fun a => io_map f (k a)).
Proof.
  destruct m as [log [a|e]]; simpl; [|reflexivity].
  by destruct (k a) as [log1 [b|e]].
Qed.

Lemma extend_if_app (docs loaded_docs : list Document) :
  extend_if docs loaded_docs = (docs ++ loaded_docs)%list.
Proof. destruct loaded_docs; simpl; [by rewrite app_nil_r | reflexivity]. Qed.

(** ** The loop over the sources *)

(** The loop over two batches is the loop over the first, then the loop
    over the second started from its documents. *)
Lemma load_loop_app (s1 s2 : list path_like) :
  forall docs,
    load_loop (s1 ++ s2) docs = io_bind (load_loop s1 docs) (load_loop s2).
Proof.
  induction s1 as [|source rest IH]; intros docs.
  - change (load_loop s2 docs = io_bind (io_ret docs) (load_loop s2)).
    by rewrite io_bind_ret_l.
  - cbn [app load_loop].
    repeat match goal with
           | |- context [if ?b then _ else _] => destruct b; cbn [negb]
           | |- io_bind ?m _ = io_bind (io_bind ?m _) _ =>
               rewrite io_bind_assoc; apply io_bind_ext; intros ?
           | |- _ = io_bind (raise _) _ => reflexivity
           | |- load_loop (_ ++ _) _ = _ => apply IH
           end.
Qed.

(** The documents a loop starts with come first in its result. *)
Lemma load_loop_acc (sources : list path_like) :
  forall docs,
    load_loop sources docs = io_map (app docs) (load_loop sources []).
Proof.
  induction sources as [|source rest IH]; intros docs.
  - simpl. by rewrite app_nil_r.
  - cbn [load_loop].
    repeat match goal with
           | |- context [if ?b then _ else _] => destruct b; cbn [negb]
           | |- io_bind ?m _ = io_map _ (io_bind ?m _) =>
               rewrite io_map_bind; apply io_bind_ext; intros ?
           | |- raise _ = io_map _ (raise _) => reflexivity
           | |- load_loop rest docs = io_map _ (load_loop rest []) => apply IH
           end.
    all: rewrite (IH (extend_if docs _)), (IH (extend_if [] _)).
    all: rewrite !extend_if_app; simpl.
    all: destruct (load_loop rest []) as [log [d|e]]; simpl; [|reflexivity].
    all: by rewrite app_assoc.
Qed.

Lemma load_loop_falsy_skipped (sources : list path_like) :
  forall docs,
    load_loop sources docs =
    load_loop (filter (fun source => truthy source = true) sources) docs.
Proof.
  induction sources as [|source rest IH]; intros docs; [reflexivity|].
  rewrite filter_cons. destruct (truthy source) eqn:Htruthy.
  - rewrite decide_True by reflexivity. cbn [load_loop]. rewrite Htruthy.
    cbn [negb].
    repeat match goal with
           | |- context [if ?b then _ else _] => destruct b; cbn [negb]
           | |- io_bind ?m _ = io_bind ?m _ => apply io_bind_ext; intros ?
           | |- raise _ = raise _ => reflexivity
           | |- load_loop rest _ = _ => apply IH
           end.
  - rewrite decide_False by discriminate. cbn [load_loop]. rewrite Htruthy.
    apply IH.
Qed.

Lemma load_documents_cons (source : path_like) (rest : list path_like) :
  load_documents (source :: rest) = load_loop (source :: rest) [].
Proof. reflexivity. Qed.

Lemma load_from_url_fetches_only (url : string) :
  forallb is_fetch (load_from_url url).1 = true.
Proof.
  unfold load_from_url.
  destruct (String.eqb url EmptyString); [reflexivity|].
  destruct (urlparse_scheme url) as [scheme|e]; [|reflexivity].
  cbn [io_bind].
  destruct (negb _); [reflexivity|].
  unfold try_except, ask. by destruct (WebBaseLoader_load url).
Qed.

Lemma load_loop_urls_fetch_only (sources : list path_like) :
  Forall (fun source => url_like source = true) sources ->
  forall docs, forallb is_fetch (load_loop sources docs).1 = true.
Proof.
  induction 1 as [|source rest Hurl _ IH]; intros docs; [reflexivity|].
  cbn [load_loop]. destruct (truthy source); cbn [negb]; [|apply IH].
  unfold url_like in Hurl. rewrite Hurl.
  pose proof (load_from_url_fetches_only (str source)) as Hfetch.
  destruct (load_from_url (str source)) as [log [loaded|e]]; simpl in *;
    [|exact Hfetch].
  specialize (IH (extend_if docs loaded)).
  destruct (load_loop rest (extend_if docs loaded)) as [log' r]. simpl in *.
  rewrite forallb_app, Hfetch, IH. reflexivity.
Qed.

(** X4.  A source that fails aborts the batch: when loading a non-empty
    list of sources raises, loading that list followed by any further
    sources raises the same exception after the same questions, so the
    further sources are never looked at. *)
Theorem X4_failing_source_aborts_batch
        (s1 s2 : list path_like) (log : list event) (e : exn) :
  s1 <> [] ->
  load_documents s1 = (log, Raise e) ->
  load_documents (s1 ++ s2) = (log, Raise e).
Proof.
  intros Hne Hraise. destruct s1 as [|source rest]; [done|].
  change ((source :: rest) ++ s2) with (source :: (rest ++ s2)).
  rewrite load_documents_cons in *.
  change (source :: (rest ++ s2)) with ((source :: rest) ++ s2).
  by rewrite load_loop_app, Hraise.
Qed.

(** X5.  Results are concatenated in input order: when two lists of
    sources each load, their concatenation loads, asks the questions of
    the first list followed by those of the second, and returns the
    documents of the first list followed by those of the second. *)
Theorem X5_batches_concatenate
        (s1 s2 : list path_like) (log1 log2 : list event)
        (d1 d2 : list Document) :
  load_documents s1 = (log1, Ok d1) ->
  load_documents s2 = (log2, Ok d2) ->
  load_documents (s1 ++ s2) = ((log1 ++ log2)%list, Ok (d1 ++ d2)%list).
Proof.
  intros H1 H2.
  destruct s1 as [|a1 r1]; [discriminate|].
  destruct s2 as [|a2 r2]; [discriminate|].
  change ((a1 :: r1) ++ a2 :: r2) with (a1 :: (r1 ++ a2 :: r2)).
  rewrite load_documents_cons in *.
  change (a1 :: (r1 ++ a2 :: r2)) with ((a1 :: r1) ++ a2 :: r2).
  rewrite load_loop_app, H1. cbn [io_bind].
  rewrite (load_loop_acc (a2 :: r2) d1), H2. reflexivity.
Qed.

(** X6.  Falsy entries are transparent: when at least one source is
    truthy, [load_documents] behaves on the sources exactly as on the
    truthy ones among them. *)
Theorem X6_falsy_sources_are_skipped (sources : list path_like) :
  Exists (fun source => truthy source = true) sources ->
  load_documents sources =
  load_documents (filter (fun source => truthy source = true) sources).
Proof.
  intros Hsome.
  assert (Hfiltered :
            filter (fun source => truthy source = true) sources <> []).
  { apply Exists_exists in Hsome as (source & Hin & Htruthy).
    intros Hnil.
    assert (Hsource : source ∈ filter (fun source => truthy source = true) sources)
      by (by apply list_elem_of_filter).
    rewrite Hnil in Hsource. by apply elem_of_nil in Hsource. }
  destruct sources as [|source rest]; [by apply Exists_nil in Hsome|].
  rewrite load_documents_cons, load_loop_falsy_skipped.
  destruct (filter _ (source :: rest)) as [|a r]; [done | reflexivity].
Qed.

(** X7.  URL sources never touch the file system: for sources that all
    begin with "http://" or "https://", every question [load_documents]
    asks is a fetch. *)
Theorem X7_url_sources_only_fetch (sources : list path_like) :
  Forall (fun source => url_like source = true) sources ->
  forallb is_fetch (load_documents sources).1 = true.
Proof.
  intros Hurls. destruct sources as [|source rest]; [reflexivity|].
  rewrite load_documents_cons. by apply load_loop_urls_fetch_only.
Qed.

(** X8.  A truthy source that is no URL and has no ".txt" suffix, for
    which the existence test answers and, when the answer is yes, the
    directory test answers no, makes [load_documents] raise [ValueError]
    before anything is read, whatever sources follow it. *)
Theorem X8_unsupported_source_raises
        (source : path_like) (rest : list path_like) (found : bool) :
  truthy source = true ->
  url_like source = false ->
  path_exists (Path_of source) = Ok found ->
  (found = true -> path_is_dir (Path_of source) = Ok false) ->
  lower (suffix (Path_of source)) <> ".txt" ->
  exists (log : list event) (msg : string),
    load_documents (source :: rest) = (log, Raise (ValueError msg)) /\
    forallb (fun ev => negb (is_read ev)) log = true.
Proof.
  intros Htruthy Hurl Hexists Hdir Hsuffix.
  rewrite load_documents_cons. cbn [load_loop].
  unfold url_like in Hurl. rewrite Htruthy, Hurl, Hexists. cbn [negb].
  destruct found; simpl; [|eauto].
  rewrite Hdir by reflexivity. simpl.
  destruct (String.eqb (lower (suffix (Path_of source))) ".txt") eqn:Heq.
  - apply String.eqb_eq in Heq. contradiction.
  - eauto.
Qed.

(** X26.  A file-system test that raises ends the batch with its own
    exception: when the existence test of a truthy source that is no URL
    raises, [load_documents] raises that exception, unchanged, having
    asked that one question, whatever sources follow. *)
Theorem X26_path_test_error_aborts_batch
        (source : path_like) (rest : list path_like) (e : exn) :
  truthy source = true ->
  url_like source = false ->
  path_exists (Path_of source) = Raise e ->
  load_documents (source :: rest) = ([AskExists (Path_of source)], Raise e).
Proof.
  intros Htruthy Hurl Hexists.
  rewrite load_documents_cons. cbn [load_loop].
  unfold url_like in Hurl. rewrite Htruthy, Hurl, Hexists. reflexivity.
Qed.

End LoaderBatches.

Section LoaderBatchExamples.
Import DocumentProcessor Loading.
Local Open Scope list_scope.
#[local] Existing Instance Fixtures.small_site.


(** X4 at work: the missing file stops the batch before the good one. *)
Lemma X4_failing_source_aborts_batch_witness :
  [PStr "missing.txt"] <> [] /\
  load_documents [PStr "missing.txt"; PStr "notes.TXT"] =
  ([AskExists (mkPath "missing.txt")],
   Raise (ValueError "Source path does not exist: missing.txt")).
Proof.
  assert (Hne : [PStr "missing.txt"] <> []) by discriminate.
  split; [exact Hne|].
  apply (X4_failing_source_aborts_batch [PStr "missing.txt"] [PStr "notes.TXT"]
           _ _ Hne).
  reflexivity.
Defined.

(** X5 at work: a page, then a directory of PDF files. *)
Lemma X5_batches_concatenate_witness :
  load_documents [PStr "https://example.org/paris"; PStr "pdfs"] =
  ([FetchUrl "https://example.org/paris";
    AskExists (mkPath "pdfs"); AskIsDir (mkPath "pdfs");
    AskExists (mkPath "pdfs"); AskIsDir (mkPath "pdfs");
    ReadPdfDir (mkPath "pdfs")],
   Ok [Doubles.paris; Doubles.tokyo]).
Proof.
  apply (X5_batches_concatenate
           [PStr "https://example.org/paris"] [PStr "pdfs"]
           [FetchUrl "https://example.org/paris"]
           [AskExists (mkPath "pdfs"); AskIsDir (mkPath "pdfs");
            AskExists (mkPath "pdfs"); AskIsDir (mkPath "pdfs");
            ReadPdfDir (mkPath "pdfs")]
           [Doubles.paris] [Doubles.tokyo]);
    reflexivity.
Defined.

(** X6 at work: an empty string before a directory. *)
Lemma X6_falsy_sources_are_skipped_witness :
  Exists (fun source => truthy source = true) [PStr EmptyString; PStr "pdfs"] /\
  load_documents [PStr EmptyString; PStr "pdfs"] = load_documents [PStr "pdfs"].
Proof.
  assert (Hsome : Exists (fun source => truthy source = true)
                         [PStr EmptyString; PStr "pdfs"])
    by (apply Exists_cons_tl, Exists_cons_hd; reflexivity).
  split; [exact Hsome|].
  exact (X6_falsy_sources_are_skipped [PStr EmptyString; PStr "pdfs"] Hsome).
Defined.

(** X7 at work: a page that loads and a page that does not. *)
Lemma X7_url_sources_only_fetch_witness :
  Forall (fun source => url_like source = true)
         [PStr "https://example.org/paris"; PStr "http://down"] /\
  forallb is_fetch
    (load_documents [PStr "https://example.org/paris"; PStr "http://down"]).1
  = true.
Proof.
  assert (Hurls : Forall (fun source => url_like source = true)
                         [PStr "https://example.org/paris"; PStr "http://down"])
    by (repeat constructor).
  split; [exact Hurls|].
  exact (X7_url_sources_only_fetch _ Hurls).
Defined.

(** A malformed address: nothing is fetched. *)
Lemma load_from_url_malformed :
  load_from_url "http://[::1" = ([], Raise (ValueError "Invalid IPv6 URL")).
Proof. reflexivity. Qed.

(** X8 at work: [readme.md] before a directory. *)
Lemma X8_unsupported_source_raises_witness :
  exists (log : list event) (msg : string),
    load_documents [PStr "readme.md"; PStr "pdfs"]
      = (log, Raise (ValueError msg)) /\
    forallb (fun ev => negb (is_read ev)) log = true.
Proof.
  apply (X8_unsupported_source_raises (PStr "readme.md") [PStr "pdfs"] true);
    [reflexivity | reflexivity | reflexivity | reflexivity
    | vm_compute; discriminate].
Defined.

(** [load_documents(["readme.md", "pdfs"])] in full. *)
Lemma load_documents_readme :
  load_documents [PStr "readme.md"; PStr "pdfs"] =
  ([AskExists (mkPath "readme.md"); AskIsDir (mkPath "readme.md")],
   Raise (ValueError "Unsupported file type: .md (source: readme.md)")).
Proof. reflexivity. Qed.

(** X26 at work: the directory [vault] may not be searched. *)
Lemma X26_path_test_error_aborts_batch_witness :
  load_documents [PStr "vault/notes.txt"; PStr "pdfs"] =
  ([AskExists (mkPath "vault/notes.txt")],
   Raise (OtherError "PermissionError"
            "[Errno 13] Permission denied: 'vault/notes.txt'")).
Proof.
  assert (Htruthy : truthy (PStr "vault/notes.txt") = true) by reflexivity.
  assert (Hurl : url_like (PStr "vault/notes.txt") = false) by reflexivity.
  assert (Hexists : path_exists (Path_of (PStr "vault/notes.txt"))
                    = Raise (OtherError "PermissionError"
                               "[Errno 13] Permission denied: 'vault/notes.txt'"))
    by reflexivity.
  exact (X26_path_test_error_aborts_batch (PStr "vault/notes.txt") [PStr "pdfs"]
           _ Htruthy Hurl Hexists).
Defined.

End LoaderBatchExamples.

(* ===================================================================== *)
(** * Further properties of the splitter                                   *)
(* ===================================================================== *)

Section ChunkShape.
Import TextSplitter.
Context {char : Type} `{!Characters char}.
Local Abbreviation chars := (TextSplitter.chars char).
Local Open Scope list_scope.
Local Open Scope Z_scope.

Variable self : TextSplitter char.

(** ** No chunk is empty *)

Lemma join_docs_nonempty (docs : list chars) (separator text : chars) :
  _join_docs docs separator = Some text -> text <> [].
Proof.
  unfold _join_docs.
  destruct (strip (join_chars separator docs)); simpl; [discriminate|].
  by intros [= <-].
Qed.

Lemma append_doc_nonempty (docs current_doc : list chars) (separator : chars) :
  Forall (fun chunk => chunk <> []) docs ->
  Forall (fun chunk => chunk <> [])
         (append_doc docs (_join_docs current_doc separator)).
Proof.
  intros Hdocs. destruct (_join_docs current_doc separator) as [text|] eqn:Hjoin;
    simpl; [|exact Hdocs].
  apply Forall_app. split; [exact Hdocs|]. constructor; [|constructor].
  by eapply join_docs_nonempty.
Qed.

Lemma merge_loop_nonempty (separator : chars) (splits : list chars) :
  forall (docs current_doc : list chars) (total : Z) (out : list chars),
    merge_loop self separator splits docs current_doc total = Ok out ->
    Forall (fun chunk => chunk <> []) docs ->
    Forall (fun chunk => chunk <> []) out.
Proof.
  induction splits as [|d rest IH]; intros docs cur total out Hrun Hdocs.
  - simpl in Hrun. injection Hrun as <-. by apply append_doc_nonempty.
  - cbn [merge_loop] in Hrun.
    destruct (total + len d + sep_if (0 <? length cur)%nat (len separator)
              >? _chunk_size self).
    + destruct (0 <? length cur)%nat.
      * destruct (pop_loop self (len separator) (len d) cur total)
          as [[kept total']|e]; simpl in Hrun; [|discriminate].
        eapply IH; [exact Hrun|]. by apply append_doc_nonempty.
      * simpl in Hrun. eapply IH; [exact Hrun | exact Hdocs].
    + simpl in Hrun. eapply IH; [exact Hrun | exact Hdocs].
Qed.

Lemma flush_nonempty (good final_chunks out : list chars) :
  flush self good final_chunks = Ok out ->
  Forall (fun chunk => chunk <> []) final_chunks ->
  Forall (fun chunk => chunk <> []) out.
Proof.
  unfold flush, _merge_splits. destruct (is_empty good).
  - by intros [= <-].
  - destruct (merge_loop self [] good [] [] 0) as [merged|e] eqn:Hmerge;
      simpl; [|discriminate].
    intros [= <-] Hfinal. apply Forall_app. split; [exact Hfinal|].
    eapply merge_loop_nonempty; [exact Hmerge | constructor].
Qed.

Lemma pieces_loop_nonempty (deeper : option (chars -> result (list chars))) :
  (forall f, deeper = Some f ->
             forall s out, f s = Ok out -> Forall (fun chunk => chunk <> []) out) ->
  forall (splits good final_chunks out : list chars),
    pieces_loop self deeper splits good final_chunks = Ok out ->
    Forall (fun s => s <> []) splits ->
    Forall (fun chunk => chunk <> []) final_chunks ->
    Forall (fun chunk => chunk <> []) out.
Proof.
  intros Hdeeper. induction splits as [|s rest IH];
    intros good final_chunks out Hrun Hsplits Hfinal.
  - simpl in Hrun. by eapply flush_nonempty.
  - apply Forall_cons in Hsplits as [Hs Hrest]. cbn [pieces_loop] in Hrun.
    destruct (len s <? _chunk_size self).
    + eapply IH; eassumption.
    + destruct (flush self good final_chunks) as [flushed|e] eqn:Hflush;
        simpl in Hrun; [|discriminate].
      pose proof (flush_nonempty _ _ _ Hflush Hfinal) as Hflushed.
      destruct deeper as [f|].
      * destruct (f s) as [other|e] eqn:Hf; simpl in Hrun; [|discriminate].
        eapply IH; [exact Hrun | exact Hrest |].
        apply Forall_app. split; [exact Hflushed|]. by eapply Hdeeper.
      * simpl in Hrun. eapply IH; [exact Hrun | exact Hrest |].
        apply Forall_app. split; [exact Hflushed|]. by constructor.
Qed.

Lemma split_pieces_nonempty (text separator : chars) :
  Forall (fun s => s <> []) (_split_text_with_regex text separator).
Proof.
  unfold _split_text_with_regex. apply Forall_forall.
  by intros s [Hs _]%list_elem_of_filter.
Qed.

Lemma split_text_from_nonempty (final : chars) (separators : list chars) :
  forall (text : chars) (chunks : list chars),
    split_text_from self final separators text = Ok chunks ->
    Forall (fun chunk => chunk <> []) chunks.
Proof.
  induction separators as [|_s rest IH]; intros text chunks Hrun;
    cbn [split_text_from] in Hrun.
  - eapply (pieces_loop_nonempty None); [discriminate | exact Hrun | |constructor].
    apply split_pieces_nonempty.
  - destruct (is_empty _s).
    + eapply (pieces_loop_nonempty None);
        [discriminate | exact Hrun | |constructor].
      apply split_pieces_nonempty.
    + destruct (contains _s text).
      * eapply pieces_loop_nonempty; [|exact Hrun| |constructor].
        -- intros f Hf s out Hout. destruct rest as [|r rest']; [discriminate|].
           injection Hf as <-. by eapply (IH s).
        -- apply split_pieces_nonempty.
      * by eapply (IH text).
Qed.

Lemma split_text_nonempty (text : chars) (chunks : list chars) :
  split_text self text = Ok chunks ->
  Forall (fun chunk => chunk <> []) chunks.
Proof.
  unfold split_text, _split_text.
  destruct (last (_separators self)) as [final|]; [|discriminate].
  by apply (split_text_from_nonempty final (_separators self) text).
Qed.

End ChunkShape.

Section ChunkPieces.
Import TextSplitter Chunks.
Context {char : Type} `{!Characters char}.
Local Abbreviation chars := (TextSplitter.chars char).
Local Open Scope list_scope.
Local Open Scope Z_scope.

(** ** Every chunk is a run of characters of the text *)

Lemma piece_of_refl (text : chars) : piece_of text text.
Proof. exists [], []. by rewrite app_nil_r. Qed.

Lemma piece_of_trans (a b c : chars) :
  piece_of a b -> piece_of b c -> piece_of a c.
Proof.
  intros (pre1 & post1 & ->) (pre2 & post2 & ->).
  exists (pre1 ++ pre2), (post2 ++ post1). by rewrite <- !app_assoc.
Qed.

Lemma lstrip_piece (s : chars) : piece_of s (lstrip s).
Proof.
  induction s as [|c s IH]; simpl; [apply piece_of_refl|].
  destruct (is_space c); [|apply piece_of_refl].
  destruct IH as (pre & post & Hs). exists (c :: pre), post.
  simpl. by rewrite <- Hs.
Qed.

Lemma rev_piece (a b : chars) : piece_of a b -> piece_of (rev a) (rev b).
Proof.
  intros (pre & post & ->). exists (rev post), (rev pre).
  by rewrite !rev_app_distr, <- app_assoc.
Qed.

Lemma strip_piece (s : chars) : piece_of s (strip s).
Proof.
  unfold strip, rstrip. eapply piece_of_trans; [apply lstrip_piece|].
  rewrite <- (rev_involutive (lstrip s)) at 1.
  apply rev_piece, lstrip_piece.
Qed.

Lemma slice_piece (w : window) (text : chars) : piece_of text (slice w text).
Proof.
  unfold slice. exists (take w.1 text), (drop (w.2 - w.1) (drop w.1 text)).
  by rewrite take_drop, take_drop.
Qed.

Lemma cut_from_piece (text : chars) (w : window) (chunk : chars) :
  cut_from text w chunk -> piece_of text chunk.
Proof.
  intros [_ [-> | ->]]; [apply slice_piece|].
  eapply piece_of_trans; [apply slice_piece | apply strip_piece].
Qed.

Lemma laid_out_pieces (size ov : Z) (text : chars) (chunks : list chars) :
  laid_out size ov text chunks -> Forall (piece_of text) chunks.
Proof.
  intros (ws & Hcut & _).
  induction Hcut as [|w c ws cs Hwc _ IH]; constructor; [|exact IH].
  by eapply cut_from_piece.
Qed.

End ChunkPieces.

Section ShortTexts.
Import TextSplitter Chunks.
Context {char : Type} `{!Characters char}.
Local Abbreviation chars := (TextSplitter.chars char).
Local Open Scope list_scope.
Local Open Scope Z_scope.

Variable self : TextSplitter char.
Let size := _chunk_size self.

(** ** A text shorter than [chunk_size] is one chunk *)

(** Pieces that fit together in one chunk are merged into one. *)
Lemma merge_loop_fits (rest : list chars) :
  forall docs current_doc : list chars,
    len (concat current_doc) + len (concat rest) <= size ->
    merge_loop self [] rest docs current_doc (len (concat current_doc))
    = Ok (append_doc docs (_join_docs (current_doc ++ rest) [])).
Proof.
  induction rest as [|d rest IH]; intros docs cur Hfit.
  - simpl. by rewrite app_nil_r.
  - rewrite merge_loop_cons. simpl in Hfit. rewrite len_app in Hfit.
    pose proof (len_nonneg (concat rest)).
    replace (len (concat cur) + len d >? _chunk_size self) with false
      by (symmetry; subst size; lia).
    simpl.
    replace (len (concat cur) + len d) with (len (concat (cur ++ [d])))
      by (rewrite concat_app, len_app; simpl; rewrite app_nil_r; lia).
    rewrite IH.
    + by rewrite <- app_assoc.
    + rewrite concat_app, len_app. simpl. rewrite app_nil_r. lia.
Qed.

Lemma pieces_loop_all_good (deeper : option (chars -> result (list chars)))
      (splits : list chars) :
  Forall (fun s => len s < size) splits ->
  forall good final_chunks : list chars,
    pieces_loop self deeper splits good final_chunks
    = flush self (good ++ splits) final_chunks.
Proof.
  induction 1 as [|s rest Hs _ IH]; intros good final_chunks.
  - simpl. by rewrite app_nil_r.
  - cbn [pieces_loop].
    replace (len s <? _chunk_size self) with true by (symmetry; subst size; lia).
    rewrite IH. by rewrite <- app_assoc.
Qed.

Lemma piece_length (pieces : list chars) (s : chars) :
  s ∈ pieces -> len s <= len (concat pieces).
Proof.
  induction pieces as [|p pieces IH]; [by intros ?%elem_of_nil|].
  simpl. rewrite len_app. pose proof (len_nonneg p).
  pose proof (len_nonneg (concat pieces)).
  intros [->|Hin]%elem_of_cons; [lia|]. specialize (IH Hin). lia.
Qed.

Lemma split_with_short (deeper : option (chars -> result (list chars)))
      (separator text : chars) :
  len text < size ->
  split_with self deeper separator text = Ok (kept_whole text).
Proof.
  intros Hshort. unfold split_with.
  pose proof (split_concat text separator) as Hconcat.
  set (pieces := _split_text_with_regex text separator) in *.
  rewrite pieces_loop_all_good.
  - simpl. unfold flush, _merge_splits.
    destruct pieces as [|p pieces]; simpl is_empty; cbv iota.
    + simpl in Hconcat. by subst text.
    + change 0 with (len (concat (@nil chars))). rewrite merge_loop_fits.
      * simpl app. unfold _join_docs. rewrite join_chars_nil, Hconcat.
        unfold kept_whole. by destruct (strip text).
      * rewrite Hconcat. change (len (concat (@nil chars))) with 0. lia.
  - apply Forall_forall. intros s Hs. apply piece_length in Hs.
    rewrite Hconcat in Hs. lia.
Qed.

Lemma split_text_from_short (final : chars) (separators : list chars)
      (text : chars) :
  len text < size ->
  split_text_from self final separators text = Ok (kept_whole text).
Proof.
  intros Hshort. induction separators as [|_s rest IH]; cbn [split_text_from].
  - by apply split_with_short.
  - destruct (is_empty _s); [by apply split_with_short|].
    destruct (contains _s text); [by apply split_with_short | exact IH].
Qed.

Lemma split_text_short (text : chars) :
  _separators self = default_separators ->
  len text < size ->
  split_text self text = Ok (kept_whole text).
Proof.
  intros Hsep Hshort. unfold split_text, _split_text. rewrite Hsep. simpl last.
  by apply split_text_from_short.
Qed.

End ShortTexts.

Section ProcessorFacts.
Import TextSplitter Chunks.
Context {char : Type} `{!Characters char}.
Local Abbreviation chars := (TextSplitter.chars char).
Local Open Scope list_scope.
Local Open Scope Z_scope.

Lemma text_of_nonempty (chunk : chars) :
  chunk <> [] -> text_of chunk <> EmptyString.
Proof.
  intros Hchunk Hempty. apply Hchunk.
  rewrite <- (characters_text_of chunk), Hempty. apply characters_empty.
Qed.

Lemma splitter_split_documents_nonempty (self : TextSplitter char)
      (documents out : list Document) :
  TextSplitter.split_documents self documents = Ok out ->
  Forall (fun chunk => page_content chunk <> EmptyString) out.
Proof.
  revert out. induction documents as [|doc rest IH]; intros out.
  - simpl. intros [= <-]. constructor.
  - cbn [TextSplitter.split_documents]. unfold chunks_of.
    destruct (split_text self _) as [chunks|e] eqn:Hchunks; simpl; [|discriminate].
    destruct (TextSplitter.split_documents self rest) as [there|e]; simpl;
      [|discriminate].
    intros [= <-]. apply Forall_app. split; [|by apply IH].
    apply split_text_nonempty in Hchunks. unfold as_documents.
    apply Forall_fmap. eapply Forall_impl; [exact Hchunks|].
    intros chunk Hchunk. simpl. by apply text_of_nonempty.
Qed.

(** A processor that was built splits every list of documents. *)
Lemma split_documents_total (chunk_size chunk_overlap : Z)
      (dp : DocumentProcessor.DocumentProcessor char) (documents : list Document) :
  DocumentProcessor.init chunk_size chunk_overlap = Ok dp ->
  exists per_doc : list (list chars),
    DocumentProcessor.split_documents dp documents
      = Ok (concat (zip_with as_documents documents per_doc)) /\
    TextSplitter.split_documents (DocumentProcessor.splitter dp) documents
      = Ok (concat (zip_with as_documents documents per_doc)) /\
    Forall2 (fun doc chunks =>
               laid_out chunk_size chunk_overlap
                        (characters (page_content doc)) chunks)
            documents per_doc.
Proof.
  intros Hinit. apply init_ok in Hinit as (-> & Hsize & Hov & _).
  destruct (splitter_split_documents_spec
              (mkTextSplitter chunk_size chunk_overlap default_separators)
              documents Hsize Hov eq_refl) as (per_doc & Hrun & Hlaid).
  exists per_doc. split; [|split; [exact Hrun | exact Hlaid]].
  unfold DocumentProcessor.split_documents.
  destruct documents as [|doc rest]; [|exact Hrun].
  apply Forall2_nil_inv_l in Hlaid as ->. reflexivity.
Qed.

(** X9.  A processor is built exactly when [0 < chunk_size] and
    [0 <= chunk_overlap <= chunk_size]; it then holds the two sizes and a
    splitter made with them.  For any other sizes the construction
    raises [ValueError]. *)
Theorem X9_processor_built_iff_sizes_valid (chunk_size chunk_overlap : Z) :
  if (0 <? chunk_size) && (0 <=? chunk_overlap) && (chunk_overlap <=? chunk_size)
  then DocumentProcessor.init chunk_size chunk_overlap
       = Ok (DocumentProcessor.mkDocumentProcessor chunk_size chunk_overlap
               (mkTextSplitter chunk_size chunk_overlap default_separators))
  else exists msg : string,
      DocumentProcessor.init chunk_size chunk_overlap = Raise (ValueError msg).
Proof.
  unfold DocumentProcessor.init, init.
  destruct (chunk_size <=? 0) eqn:H1.
  - replace (0 <? chunk_size) with false by (symmetry; lia). simpl. eauto.
  - replace (0 <? chunk_size) with true by (symmetry; lia).
    destruct (chunk_overlap <? 0) eqn:H2.
    + replace (0 <=? chunk_overlap) with false by (symmetry; lia). simpl. eauto.
    + replace (0 <=? chunk_overlap) with true by (symmetry; lia).
      destruct (chunk_overlap >? chunk_size) eqn:H3.
      * replace (chunk_overlap <=? chunk_size) with false by (symmetry; lia).
        simpl. eauto.
      * replace (chunk_overlap <=? chunk_size) with true by (symmetry; lia).
        reflexivity.
Qed.

(** X10.  No chunk is empty: a processor that was built returns, for
    every list of documents, chunks whose content is never the empty
    string. *)
Theorem X10_chunks_are_not_empty
        (chunk_size chunk_overlap : Z)
        (dp : DocumentProcessor.DocumentProcessor char) (documents : list Document) :
  DocumentProcessor.init chunk_size chunk_overlap = Ok dp ->
  exists chunks : list Document,
    DocumentProcessor.split_documents dp documents = Ok chunks /\
    Forall (fun chunk => page_content chunk <> EmptyString) chunks.
Proof.
  intros Hinit.
  destruct (split_documents_total _ _ dp documents Hinit)
    as (per_doc & Hrun & Hsplitter & _).
  eexists. split; [exact Hrun|].
  by eapply splitter_split_documents_nonempty.
Qed.

(** X11.  Every chunk comes from one of the documents: it carries that
    document's metadata and its content is a run of consecutive
    characters of that document's text. *)
Theorem X11_chunks_are_pieces_with_metadata
        (chunk_size chunk_overlap : Z)
        (dp : DocumentProcessor.DocumentProcessor char) (documents : list Document) :
  DocumentProcessor.init chunk_size chunk_overlap = Ok dp ->
  exists chunks : list Document,
    DocumentProcessor.split_documents dp documents = Ok chunks /\
    Forall (fun chunk =>
              exists doc : Document,
                doc ∈ documents /\
                metadata chunk = metadata doc /\
                piece_of (characters (page_content doc))
                         (characters (page_content chunk)))
           chunks.
Proof.
  intros Hinit.
  destruct (split_documents_total _ _ dp documents Hinit)
    as (per_doc & Hrun & _ & Hlaid).
  eexists. split; [exact Hrun|]. clear Hrun Hinit.
  induction Hlaid as [|doc chunks docs per Hdoc _ IH]; [constructor|].
  simpl. apply Forall_app. split.
  - apply laid_out_pieces in Hdoc. unfold as_documents.
    apply Forall_fmap. eapply Forall_impl; [exact Hdoc|].
    intros chunk Hpiece. exists doc. simpl.
    split; [apply elem_of_cons; by left|]. split; [reflexivity|].
    by rewrite characters_text_of.
  - eapply Forall_impl; [exact IH|].
    intros chunk (d & Hin & Hmeta & Hpiece). exists d.
    split; [apply elem_of_cons; by right | by split].
Qed.

(** X12.  Short documents stay whole: when every document's text has
    fewer than [chunk_size] characters, each document gives one chunk,
    its text without the white space at its ends, or no chunk when its
    text is white space only.  White space is what Python's [strip]
    removes, whatever the characters of the texts are. *)
Theorem X12_short_documents_stay_whole
        (chunk_size chunk_overlap : Z)
        (dp : DocumentProcessor.DocumentProcessor char) (documents : list Document) :
  DocumentProcessor.init chunk_size chunk_overlap = Ok dp ->
  Forall (fun doc => len (characters (page_content doc)) < chunk_size)
         documents ->
  DocumentProcessor.split_documents dp documents
  = Ok (concat (map (fun doc =>
                       as_documents doc
                         (kept_whole (characters (page_content doc))))
                    documents)).
Proof.
  intros Hinit Hshort. apply init_ok in Hinit as (-> & _).
  unfold DocumentProcessor.split_documents. simpl.
  assert (Hsplit :
            TextSplitter.split_documents
              (mkTextSplitter chunk_size chunk_overlap default_separators)
              documents
            = Ok (concat (map (fun doc =>
                                 as_documents doc
                                   (kept_whole
                                      (characters (page_content doc))))
                              documents))).
  { induction Hshort as [|doc rest Hdoc _ IH]; [reflexivity|].
    cbn [TextSplitter.split_documents]. unfold chunks_of.
    rewrite split_text_short; [|reflexivity|].
    - simpl. rewrite IH. reflexivity.
    - exact Hdoc. }
  destruct documents; [reflexivity | exact Hsplit].
Qed.

End ProcessorFacts.

Section ProcessUrlFacts.
Import DocumentProcessor Loading.
Local Open Scope list_scope.
Context `{!Outside}.
Context {char : Type} `{!TextSplitter.Characters char}.

(** X13.  With a processor that was built, [process_url] fails only
    where loading fails: it asks the questions [load_documents] asks and
    raises exactly the exception [load_documents] raises, if any; the
    splitting that follows never raises. *)
Theorem X13_process_url_fails_only_in_loading
        (chunk_size chunk_overlap : Z) (dp : DocumentProcessor char)
        (urls : list string) :
  init chunk_size chunk_overlap = Ok dp ->
  (process_url dp urls).1 = (load_documents (map PStr urls)).1 /\
  forall e : exn,
    (process_url dp urls).2 = Raise e <->
    (load_documents (map PStr urls)).2 = Raise e.
Proof.
  intros Hinit. unfold process_url.
  destruct (load_documents (map PStr urls)) as [log [docs|e0]]; simpl.
  - destruct (split_documents_total _ _ dp docs Hinit) as (per_doc & Hrun & _).
    rewrite Hrun, app_nil_r. split; [reflexivity|].
    intros e. split; discriminate.
  - split; [reflexivity | tauto].
Qed.

End ProcessUrlFacts.

Section ProcessorExamples.
Import TextSplitter Chunks.
#[local] Existing Instance Doubles.below_256.
Local Abbreviation chars := (TextSplitter.chars ascii).
Local Open Scope list_scope.
Local Open Scope Z_scope.

(** X10 at work on the five words. *)
Lemma X10_chunks_are_not_empty_witness :
  exists chunks : list Document,
    DocumentProcessor.split_documents Fixtures.processor_40_5
      [Doubles.five_words; Fixtures.blank] = Ok chunks /\
    Forall (fun chunk => page_content chunk <> EmptyString) chunks.
Proof.
  apply (X10_chunks_are_not_empty 40 5 Fixtures.processor_40_5).
  reflexivity.
Defined.

(** X11 at work on a document with metadata. *)
Lemma X11_chunks_are_pieces_with_metadata_witness :
  exists chunks : list Document,
    DocumentProcessor.split_documents Fixtures.processor_40_5
      [Fixtures.padded_paris] = Ok chunks /\
    Forall (fun chunk =>
              exists doc : Document,
                doc ∈ [Fixtures.padded_paris] /\
                metadata chunk = metadata doc /\
                piece_of (characters (page_content doc))
                         (characters (page_content chunk)))
           chunks.
Proof.
  apply (X11_chunks_are_pieces_with_metadata 40 5 Fixtures.processor_40_5).
  reflexivity.
Defined.

(** X12 at work: white space is trimmed, also the no-break space and
    the next-line character, and a blank document disappears. *)
Lemma X12_short_documents_stay_whole_witness :
  DocumentProcessor.split_documents Fixtures.processor_40_5
    [Fixtures.padded_paris; Fixtures.blank; Fixtures.fenced]
  = Ok [mkDocument "Paris is the capital." {[ "source" := VStr "atlas.txt" ]};
        mkDocument "Lyon" ∅].
Proof.
  rewrite (X12_short_documents_stay_whole 40 5 Fixtures.processor_40_5).
  - reflexivity.
  - reflexivity.
  - repeat constructor.
Defined.

End ProcessorExamples.

Section ProcessUrlExamples.
Import DocumentProcessor Loading.
#[local] Existing Instance Fixtures.small_site.
#[local] Existing Instance Doubles.below_256.

(** X13 at work: the page loads, then is split. *)
Lemma X13_process_url_fails_only_in_loading_witness :
  (process_url Fixtures.processor_40_5 ["https://example.org/paris"]).1
    = [FetchUrl "https://example.org/paris"] /\
  forall e : exn,
    (process_url Fixtures.processor_40_5 ["https://example.org/paris"]).2
      <> Raise e.
Proof.
  destruct (X13_process_url_fails_only_in_loading
              40 5 Fixtures.processor_40_5 ["https://example.org/paris"]
              eq_refl) as [Hlog Hraise].
  split; [exact Hlog|].
  intros e He. apply Hraise in He. discriminate.
Defined.

End ProcessUrlExamples.

(* ===================================================================== *)
(** * Further properties of the vector store                               *)
(* ===================================================================== *)

Section StoreFacts.
Import VectorStore Stores.
Context {E F : Type} `{!Faiss E F}.

(** X14.  A [create_retriever] call that raises changes nothing, and it
    raises only for an empty list of documents or because the index
    could not be built. *)
Theorem X14_failed_create_changes_nothing
        (documents : list Document) (k : Z) (w w1 : world E F) (e : exn) :
  create_retriever documents k w = (Raise e, w1) ->
  w1 = w /\
  (documents = [] \/ from_documents documents (embedding (self w)) = Raise e).
Proof.
  unfold create_retriever. destruct documents as [|d ds].
  - intros [= _ <-]. auto.
  - destruct (from_documents _ _) as [vs|e']; [discriminate|].
    intros [= <- <-]. auto.
Qed.

(** X15.  A second [create_retriever] replaces the first: the store then
    points to a new retriever object holding the second count, while the
    first object is still there, unchanged, for whoever holds it. *)
Theorem X15_second_create_replaces
        (docs1 docs2 : list Document) (k1 k2 : Z) (w w1 w2 : world E F) :
  create_retriever docs1 k1 w = (Ok tt, w1) ->
  create_retriever docs2 k2 w1 = (Ok tt, w2) ->
  exists l1 l2 : nat,
    retriever (self w1) = Some l1 /\
    retriever (self w2) = Some l2 /\
    l1 <> l2 /\
    heap w2 !! l1 = heap w1 !! l1 /\
    stored_k l1 w2 = Some k1 /\
    stored_k l2 w2 = Some k2.
Proof.
  intros H1 H2.
  apply create_retriever_ok in H1 as (vs1 & l1 & _ & _ & ->).
  apply create_retriever_ok in H2 as (vs2 & l2 & _ & Hfresh & ->).
  simpl in Hfresh.
  assert (Hne : l1 <> l2).
  { intros ->. by rewrite lookup_insert_eq in Hfresh. }
  assert (Hne' : l2 <> l1) by congruence.
  exists l1, l2.
  split; [reflexivity|]. split; [reflexivity|]. split; [exact Hne|].
  split; [|split].
  - simpl. by rewrite lookup_insert_ne.
  - unfold stored_k. simpl.
    rewrite lookup_insert_ne by exact Hne'. rewrite lookup_insert_eq. simpl.
    by rewrite lookup_singleton_eq.
  - unfold stored_k. simpl. rewrite lookup_insert_eq. simpl.
    by rewrite lookup_singleton_eq.
Qed.

Lemma step_coherent (c : call) (w w1 : world E F) (ok : bool) :
  step c w = (ok, w1) -> coherent w -> coherent w1.
Proof.
  intros Hstep Hco. destruct c as [documents k| |q k]; simpl in Hstep.
  - destruct (create_retriever documents k w) as [[[]|e] w'] eqn:Hc;
      injection Hstep as <- <-.
    + apply create_retriever_ok in Hc as (vs & l & _ & _ & ->).
      unfold coherent. simpl. eexists. by rewrite lookup_insert_eq.
    + by apply create_retriever_raise in Hc as ->.
  - unfold get_retriever in Hstep.
    destruct (retriever (self w)); by injection Hstep as <- <-.
  - unfold retrieve in Hstep. unfold coherent in *.
    destruct (retriever (self w)) as [l|] eqn:Hl.
    + injection Hstep as <- <-. simpl. rewrite Hl.
      destruct (vectorstore (self w)) as [vs|]; [|done].
      destruct Hco as (r & Hr & Hindex).
      eexists. rewrite lookup_alter_eq, Hr. simpl. by split.
    + injection Hstep as <- <-. by rewrite Hl.
Qed.

(** X16.  Whatever calls are made on a new store, its two fields stay in
    step: [vectorstore] and [retriever] are both unset or both set, and
    when set the retriever is a live object that searches the index the
    store holds. *)
Theorem X16_store_fields_stay_coherent
        (embedding_model : option E) (heap0 : gmap nat (VectorStoreRetriever F))
        (w0 w : world E F) (cs : list call) (created : bool) :
  init embedding_model heap0 = Ok w0 ->
  session cs w0 = (created, w) ->
  coherent w.
Proof.
  intros Hinit.
  assert (H0 : coherent w0).
  { unfold init in Hinit.
    destruct (match embedding_model with Some e => Ok e | None => _ end);
      simpl in Hinit; [|discriminate].
    injection Hinit as <-. exact I. }
  clear Hinit. revert w0 w created H0.
  induction cs as [|c cs IH]; intros w0 w created H0 Hs; simpl in Hs.
  - by injection Hs as <- <-.
  - destruct (step c w0) as [ok wa] eqn:Hstep.
    destruct (session cs wa) as [created' wb] eqn:Hrest.
    injection Hs as <- <-.
    eapply IH; [|exact Hrest]. by eapply step_coherent.
Qed.

(** X17.  [retrieve] changes one entry only: the store's fields, every
    other retriever object, the index of the store's retriever and every
    key of its [search_kwargs] other than "k" are as before the call. *)
Theorem X17_retrieve_changes_only_k (q : string) (k : Z) (w : world E F) :
  self (retrieve q k w).2 = self w /\
  (forall l : nat,
      retriever (self w) <> Some l ->
      heap (retrieve q k w).2 !! l = heap w !! l) /\
  (forall (l : nat) (r : VectorStoreRetriever F),
      retriever (self w) = Some l ->
      heap w !! l = Some r ->
      exists r' : VectorStoreRetriever F,
        heap (retrieve q k w).2 !! l = Some r' /\
        index r' = index r /\
        forall key : string,
          key <> "k" -> search_kwargs r' !! key = search_kwargs r !! key).
Proof.
  unfold retrieve. destruct (retriever (self w)) as [l0|] eqn:Hl; simpl.
  - split; [reflexivity|]. split.
    + intros l Hne. apply lookup_alter_ne. congruence.
    + intros l r [= ->] Hr. eexists. rewrite lookup_alter_eq, Hr. simpl.
      split; [reflexivity|]. split; [reflexivity|].
      intros key Hkey. simpl. apply lookup_insert_ne. congruence.
  - split; [reflexivity|]. split; [reflexivity|]. intros l r [=].
Qed.

End StoreFacts.

Section StoreExamples.
Import VectorStore Stores.
#[local] Existing Instance Doubles.list_index.

(** X14 at work: an empty list of documents on a new store. *)
Lemma X14_failed_create_changes_nothing_witness :
  create_retriever [] 4 Doubles.new_store
  = (Raise (ValueError "Cannot create vector store with an empty document list."),
     Doubles.new_store)
  /\ ([] = @nil Document \/
      from_documents [] (embedding (self Doubles.new_store))
      = Raise (ValueError "Cannot create vector store with an empty document list.")).
Proof.
  assert (Hc : create_retriever [] 4 Doubles.new_store
               = (Raise (ValueError
                           "Cannot create vector store with an empty document list."),
                  Doubles.new_store)) by reflexivity.
  split; [exact Hc|].
  exact (proj2 (X14_failed_create_changes_nothing [] 4 _ _ _ Hc)).
Defined.

(** X15 at work: two cities with [k=4], then one city with [k=1]. *)
Lemma X15_second_create_replaces_witness :
  exists l1 l2 : nat,
    l1 <> l2 /\
    stored_k l1 (create_retriever [Doubles.paris] 1 Doubles.two_cities_store).2
      = Some 4%Z /\
    stored_k l2 (create_retriever [Doubles.paris] 1 Doubles.two_cities_store).2
      = Some 1%Z.
Proof.
  assert (H1 : create_retriever [Doubles.paris; Doubles.tokyo] 4 Doubles.new_store
               = (Ok tt, Doubles.two_cities_store)) by (vm_compute; reflexivity).
  assert (H2 : create_retriever [Doubles.paris] 1 Doubles.two_cities_store
               = (Ok tt,
                  (create_retriever [Doubles.paris] 1 Doubles.two_cities_store).2))
    by (vm_compute; reflexivity).
  destruct (X15_second_create_replaces _ _ _ _ _ _ _ H1 H2)
    as (l1 & l2 & _ & _ & Hne & _ & Hk1 & Hk2).
  exists l1, l2. by repeat split.
Defined.

(** X16 at work: a failed creation, a good one and a retrieval. *)
Lemma X16_store_fields_stay_coherent_witness :
  coherent
    (session [CreateRetriever [] 4; CreateRetriever [Doubles.paris] 4;
              Retrieve "capital?" 2] Doubles.new_store).2.
Proof.
  apply (X16_store_fields_stay_coherent (Some tt) ∅ Doubles.new_store _
           [CreateRetriever [] 4; CreateRetriever [Doubles.paris] 4;
            Retrieve "capital?" 2]
           (session [CreateRetriever [] 4; CreateRetriever [Doubles.paris] 4;
                     Retrieve "capital?" 2] Doubles.new_store).1).
  - reflexivity.
  - by destruct (session _ _).
Defined.

End StoreExamples.

(* ===================================================================== *)
(** * Further properties of the agentic nodes                              *)
(* ===================================================================== *)

Section AgenticFacts.
Import ReactNode.
Context {R L A : Type}.
Context `{!Retriever R} `{!AgentRuntime L A} `{!Wikipedia}.

(** X18.  The agentic retrieve stage returns a state with the same
    [query] and [response] whose [retrieved_docs] are the documents the
    retriever returned for the query. *)
Theorem X18_agentic_retrieve_keeps_query_and_response
        (self : RAGNodes R L A) (state s' : RAGState) :
  retrieve_docs self state = Ok s' ->
  query s' = query state /\
  response s' = response state /\
  retriever_invoke (retriever self) (query state) = Ok (retrieved_docs s').
Proof.
  unfold retrieve_docs.
  destruct (retriever_invoke (retriever self) (query state)) as [docs|e];
    simpl; [|discriminate].
  intros [= <-]. repeat split.
Qed.

(** X19.  The agentic generate stage returns a state with the same
    [query] and [retrieved_docs] as its input. *)
Theorem X19_agentic_generate_keeps_query_and_docs
        (self : RAGNodes R L A) (state s' : RAGState) :
  (generate_answer self state).1 = Ok s' ->
  query s' = query state /\ retrieved_docs s' = retrieved_docs state.
Proof.
  rewrite generate_answer_unfold.
  destruct (agent_in_use self) as [agent|e]; simpl; [|discriminate].
  unfold answer_with.
  destruct (agent_invoke agent _) as [out|e]; simpl; [|discriminate].
  destruct (validate_str _ _) as [resp|e]; simpl; [|discriminate].
  intros [= <-]. split; reflexivity.
Qed.

Lemma generate_answer_keeps_agent (self : RAGNodes R L A) (state : RAGState)
      (agent : A) :
  agent_in_use self = Ok agent ->
  (generate_answer self state).2
  = mkRAGNodes (retriever self) (llm self) (Some agent).
Proof.
  unfold agent_in_use, generate_answer, _build_agent.
  destruct self as [r l [a|]]; simpl.
  - by intros [= ->].
  - by intros ->.
Qed.

(** X20.  The agent is built once: after a call of [generate_answer]
    that had an agent to talk to, the object holds that agent and the
    same retriever and model, and every later call talks to that agent
    and leaves the object as it is, whether or not an agent could be
    built again. *)
Theorem X20_agent_is_built_once
        (self : RAGNodes R L A) (state state' : RAGState) (agent : A) :
  agent_in_use self = Ok agent ->
  _agent (generate_answer self state).2 = Some agent /\
  retriever (generate_answer self state).2 = retriever self /\
  llm (generate_answer self state).2 = llm self /\
  generate_answer (generate_answer self state).2 state'
  = (answer_with agent state', (generate_answer self state).2).
Proof.
  intros Hagent. rewrite (generate_answer_keeps_agent self state agent Hagent).
  repeat split.
Qed.

(** X21.  When the agent cannot be built, [generate_answer] raises the
    error of the construction and leaves the object without agent, so
    that the next call tries again. *)
Theorem X21_failed_build_is_retried
        (self : RAGNodes R L A) (state : RAGState) (e : exn) :
  agent_in_use self = Raise e ->
  generate_answer self state = (Raise e, self) /\ _agent self = None.
Proof.
  unfold agent_in_use, generate_answer, _build_agent.
  destruct (_agent self) as [a|] eqn:Ha; [discriminate|].
  intros ->. split; reflexivity.
Qed.

(** X22.  The answer is the text of the last message: when the agent's
    run ends with a message whose content is a non-empty string, the
    response of the new state is that string, whatever messages came
    before. *)
Theorem X22_response_is_last_message
        (self : RAGNodes R L A) (state : RAGState) (agent : A)
        (out : agent_output) (m : message) (text : string) :
  agent_in_use self = Ok agent ->
  agent_invoke agent {[ "messages" := [HumanMessage (query state)] ]} = Ok out ->
  last (messages_of out) = Some m ->
  content_or_None m = VStr text ->
  text <> EmptyString ->
  (generate_answer self state).1
  = Ok (mkRAGState (query state) (retrieved_docs state) text).
Proof.
  intros Hagent Hout Hlast Hcontent Htext.
  rewrite (generate_answer_with self state agent Hagent).
  unfold answer_with, answer_of. rewrite Hout. simpl. rewrite Hlast, Hcontent.
  unfold or_else. simpl.
  destruct (String.eqb text EmptyString) eqn:Heq;
    [by apply String.eqb_eq in Heq|]. reflexivity.
Qed.

(** X23.  The fallback covers every empty answer: when the last message
    has no content attribute, or its content is [None], the empty string
    or an empty list, the response is "Could not generate response.". *)
Theorem X23_fallback_on_empty_answer
        (self : RAGNodes R L A) (state : RAGState) (agent : A)
        (out : agent_output) :
  agent_in_use self = Ok agent ->
  agent_invoke agent {[ "messages" := [HumanMessage (query state)] ]} = Ok out ->
  truthy (answer_of (messages_of out)) = false ->
  (generate_answer self state).1
  = Ok (mkRAGState (query state) (retrieved_docs state)
                   "Could not generate response.").
Proof.
  intros Hagent Hout Hfalsy.
  rewrite (generate_answer_with self state agent Hagent).
  by apply fallback_on_falsy_answer with (out := out).
Qed.

(** X24.  The retriever tool looks at the first eight documents only:
    two retrievals that agree on their first eight documents give the
    same text. *)
Theorem X24_tool_reads_first_eight_only
        (self self' : RAGNodes R L A) (q q' : string)
        (docs docs' : list Document) :
  retriever_invoke (retriever self) q = Ok docs ->
  retriever_invoke (retriever self') q' = Ok docs' ->
  take 8 docs = take 8 docs' ->
  retriever_tool_fn self q = retriever_tool_fn self' q'.
Proof.
  intros Hdocs Hdocs' Htake. unfold retriever_tool_fn.
  rewrite Hdocs, Hdocs'. simpl.
  destruct docs as [|d ds], docs' as [|d' ds']; try discriminate.
  - reflexivity.
  - by rewrite Htake.
Qed.

End AgenticFacts.

Section AgenticExamples.
Import ReactNode.
#[local] Existing Instance Doubles.fixed_retriever.
#[local] Existing Instance Doubles.fixed_agent.
#[local] Existing Instance Doubles.no_wikipedia.

(** X18 at work on a state that has a response already. *)
Lemma X18_agentic_retrieve_keeps_query_and_response_witness :
  retrieve_docs (Doubles.react_nodes [Doubles.paris]) Doubles.draft_state
    = Ok (mkRAGState "capital of France?" [Doubles.paris] "draft") /\
  response (mkRAGState "capital of France?" [Doubles.paris] "draft")
    = response Doubles.draft_state.
Proof.
  assert (Hrun : retrieve_docs (Doubles.react_nodes [Doubles.paris])
                               Doubles.draft_state
                 = Ok (mkRAGState "capital of France?" [Doubles.paris] "draft"))
    by reflexivity.
  split; [exact Hrun|].
  exact (proj1 (proj2 (X18_agentic_retrieve_keeps_query_and_response
                         _ _ _ Hrun))).
Defined.

(** X19 at work on a state that holds a document. *)
Lemma X19_agentic_generate_keeps_query_and_docs_witness :
  (generate_answer Fixtures.answering_nodes
     (mkRAGState "capital of France?" [Doubles.paris] EmptyString)).1
    = Ok (mkRAGState "capital of France?" [Doubles.paris] "Paris.") /\
  retrieved_docs (mkRAGState "capital of France?" [Doubles.paris] "Paris.")
    = [Doubles.paris].
Proof.
  assert (Hrun : (generate_answer Fixtures.answering_nodes
                    (mkRAGState "capital of France?" [Doubles.paris] EmptyString)).1
                 = Ok (mkRAGState "capital of France?" [Doubles.paris] "Paris."))
    by reflexivity.
  split; [exact Hrun|].
  exact (proj2 (X19_agentic_generate_keeps_query_and_docs _ _ _ Hrun)).
Defined.

(** X20 at work: the first call builds the agent, the object keeps it. *)
Lemma X20_agent_is_built_once_witness :
  agent_in_use (Doubles.react_nodes [Doubles.paris]) = Ok [] /\
  _agent (generate_answer (Doubles.react_nodes [Doubles.paris])
                          Doubles.draft_state).2 = Some [].
Proof.
  assert (Hagent : agent_in_use (Doubles.react_nodes [Doubles.paris]) = Ok [])
    by reflexivity.
  split; [exact Hagent|].
  exact (proj1 (X20_agent_is_built_once _ Doubles.draft_state
                  Doubles.draft_state [] Hagent)).
Defined.

(** X22 at work: a tool call, its result and the final text. *)
Lemma X22_response_is_last_message_witness :
  (generate_answer Fixtures.answering_nodes Doubles.draft_state).1
  = Ok (mkRAGState "capital of France?" [] "Paris.").
Proof.
  apply (X22_response_is_last_message
           Fixtures.answering_nodes Doubles.draft_state
           [AIMessage (VList ["call retriever"]); ToolMessage "[1] doc_1";
            AIMessage (VStr "Paris.")]
           (OutDict {[ "messages" :=
                         [AIMessage (VList ["call retriever"]);
                          ToolMessage "[1] doc_1"; AIMessage (VStr "Paris.")] ]})
           (AIMessage (VStr "Paris.")) "Paris.");
    [reflexivity | reflexivity | reflexivity | reflexivity | discriminate].
Defined.

(** X23 at work: the last message has an empty text. *)
Lemma X23_fallback_on_empty_answer_witness :
  (generate_answer Fixtures.mute_nodes Doubles.draft_state).1
  = Ok (mkRAGState "capital of France?" [] "Could not generate response.").
Proof.
  apply (X23_fallback_on_empty_answer
           Fixtures.mute_nodes Doubles.draft_state
           [AIMessage (VStr "thinking"); AIMessage (VStr EmptyString)]
           (OutDict {[ "messages" :=
                         [AIMessage (VStr "thinking");
                          AIMessage (VStr EmptyString)] ]}));
    reflexivity.
Defined.

(** X24 at work: ten documents and the first eight of them. *)
Lemma X24_tool_reads_first_eight_only_witness :
  retriever_tool_fn (Doubles.react_nodes Fixtures.ten_documents) "all"
  = retriever_tool_fn (Doubles.react_nodes (take 8 Fixtures.ten_documents)) "all".
Proof.
  apply (X24_tool_reads_first_eight_only
           (Doubles.react_nodes Fixtures.ten_documents)
           (Doubles.react_nodes (take 8 Fixtures.ten_documents))
           "all" "all" Fixtures.ten_documents (take 8 Fixtures.ten_documents));
    reflexivity.
Defined.

End AgenticExamples.

Section FailedBuildExample.
Import ReactNode.
#[local] Existing Instance Doubles.fixed_retriever.
#[local] Existing Instance Fixtures.no_agent.
#[local] Existing Instance Doubles.no_wikipedia.

(** X21 at work: no agent can be built. *)
Lemma X21_failed_build_is_retried_witness :
  generate_answer (Doubles.react_nodes [Doubles.paris]) Doubles.draft_state
  = (Raise (OtherError "AuthenticationError" "no API key"),
     Doubles.react_nodes [Doubles.paris]).
Proof.
  apply (X21_failed_build_is_retried (Doubles.react_nodes [Doubles.paris])
           Doubles.draft_state (OtherError "AuthenticationError" "no API key")).
  reflexivity.
Defined.

End FailedBuildExample.

(* ===================================================================== *)
(** * Further properties of the graph builder                              *)
(* ===================================================================== *)

Section RunsFacts.
Context {R L : Type} `{!Retriever R} `{!LanguageModel L}.

Lemma run_without_graph (query : string) :
  GraphBuilder.run (R := R) (L := L) (GraphBuilder.mkGraphBuilder None) query
  = (Raise (ValueError "Node `retriever` already present."),
     GraphBuilder.mkGraphBuilder None).
Proof. reflexivity. Qed.

(** X25.  The builder never recovers: however many times [run] is called
    on a new [GraphBuilder], every call raises the error of [build] and
    the builder is left without graph. *)
Theorem X25_runs_never_recover (retriver : R) (llm : L) (queries : list string) :
  Runs.run_all (R := R) (L := L) (GraphBuilder.init retriver llm) queries
  = (map (fun _ => Raise (ValueError "Node `retriever` already present."))
         queries,
     GraphBuilder.init retriver llm).
Proof.
  unfold GraphBuilder.init.
  induction queries as [|query rest IH]; [reflexivity|].
  cbn [Runs.run_all]. rewrite run_without_graph, IH. reflexivity.
Qed.

End RunsFacts.
